(** * Node views of the project website: a shallow embedding

    The views of [website/project/views/node.py] are translated function by
    function.  A view reads [request.json], loads objects, mutates them in
    memory and persists them with [save()]; a raised exception leaves every
    change that was already saved in place.  A view is therefore a function
    from its arguments and the world to an outcome and the new world. *)

From stdpp Require Import base option list strings gmap sets.
From Stdlib Require Import Ascii QArith Qround.
From Stdlib Require Import Permutation.

#[local] Set Warnings "-register-all".

Close Scope Q_scope.
Open Scope string_scope.
Open Scope list_scope.

(** ** Python values and exceptions *)

(** [httplib] status codes used by the views. *)
Inductive http_status :=
| BAD_REQUEST
| UNAUTHORIZED
| FORBIDDEN
| NOT_FOUND
| METHOD_NOT_ALLOWED
| GONE.

(** The exceptions the views raise, catch or let through; [HTTPError]
    carries its status and the entries of its [data] and [redirect_url]. *)
Inductive exn :=
| HTTPError (code : http_status) (data : list (string * string))
| PermissionsError
| ValueError
| NodeStateError (message : string)
| NodeUpdateError (key reason : string)
| ValidationValueError
| AttributeError
| TypeError
| KeyError
| IndexError
| ZeroDivisionError
| OverflowError.

(** Outcome of a call: a returned value or a raised exception. *)
Inductive result (A : Type) :=
| Return (a : A)
| Raise (e : exn).
Arguments Return {A} a.
Arguments Raise {A} e.

Definition bind {A B} (r : result A) (k : A -> result B) : result B :=
  match r with
  | Return a => k a
  | Raise e => Raise e
  end.

Notation "'let*' x ':=' r 'in' k" := (bind r (fun x => k))
  (at level 10, x pattern, r at level 100, k at level 200).

(** A value of [request.json]. *)
Inductive json :=
| JNull
| JBool (b : bool)
| JNum (q : Q)
| JStr (s : string)
| JList (l : list json)
| JObj (l : list (string * json)).

(** Python truth value: [None], [False], zero, and empty strings, lists and
    dicts are falsy. *)
Definition truthy (v : json) : bool :=
  match v with
  | JNull => false
  | JBool b => b
  | JNum q => negb (Qeq_bool q 0%Q)
  | JStr s => negb (String.eqb s "")
  | JList l => match l with [] => false | _ => true end
  | JObj l => match l with [] => false | _ => true end
  end.

(** [d.get(k)] on the request dictionary; an absent key gives [None]. *)
Fixpoint assoc {A} (k : string) (d : list (string * A)) : option A :=
  match d with
  | [] => None
  | (k', v) :: d' => if String.eqb k k' then Some v else assoc k d'
  end.

Definition json_get (d : list (string * json)) (k : string) : json :=
  default JNull (assoc k d).

Definition key := string.
Definition User := string.

(** [website.util.permissions] *)
Inductive Permission := READ | WRITE | ADMIN.

(** A list comprehension whose body can raise: the first exception, in list
    order, ends it. *)
Fixpoint for_each {A B} (f : A -> result B) (l : list A) : result (list B) :=
  match l with
  | [] => Return []
  | a :: l' =>
      let* b := f a in
      let* bs := for_each f l' in
      Return (b :: bs)
  end.

(** [s.split(sep)] for a separator of one character. *)
Fixpoint str_split (sep : ascii) (s : string) : list string :=
  match s with
  | EmptyString => [EmptyString]
  | String c s' =>
      if Ascii.eqb c sep then EmptyString :: str_split sep s'
      else match str_split sep s' with
           | h :: t => String c h :: t
           | [] => [String c EmptyString]
           end
  end.

(** The number of occurrences of a character in a string. *)
Fixpoint count_char (c : ascii) (s : string) : nat :=
  match s with
  | EmptyString => 0
  | String c' s' => (if Ascii.eqb c' c then 1 else 0) + count_char c s'
  end.

(** The strings of a request are unicode strings; a character of the model
    is a code point below 256.  [is_space] is the white space of
    [unicode.isspace] among them: tab to carriage return, the separators
    U+001C to U+001F, the space, U+0085 and U+00A0. *)
Definition is_space (c : ascii) : bool :=
  existsb (Ascii.eqb c)
    ["009"; "010"; "011"; "012"; "013"; "028"; "029"; "030"; "031"; " ";
     "133"; "160"]%char.

Fixpoint lstrip (s : string) : string :=
  match s with
  | EmptyString => EmptyString
  | String c s' => if is_space c then lstrip s' else s
  end.

Fixpoint rstrip (s : string) : string :=
  match s with
  | EmptyString => EmptyString
  | String c s' =>
      match rstrip s' with
      | EmptyString => if is_space c then EmptyString else String c EmptyString
      | r => String c r
      end
  end.

(** [s.strip()]: without the white space at both ends. *)
Definition strip (s : string) : string := rstrip (lstrip s).

(** [v.strip()] on a value of the request: only a string has the method. *)
Definition json_strip (v : json) : result string :=
  match v with
  | JStr s => Return (strip s)
  | _ => Raise AttributeError
  end.

(** ** Calls that change the world

    A call takes the world and gives an outcome and the world it leaves;
    after a raise the world keeps what had been done until then. *)
Definition M (W A : Type) : Type := W -> result A * W.

Definition ret {W A} (a : A) : M W A := fun w => (Return a, w).
Definition raise {W A} (e : exn) : M W A := fun w => (Raise e, w).
Definition seq {W A B} (c : M W A) (k : A -> M W B) : M W B :=
  fun w => match c w with
           | (Return a, w') => k a w'
           | (Raise e, w') => (Raise e, w')
           end.

(** [try: c except ...: handler] *)
Definition try_except {W A} (c : M W A) (handler : exn -> M W A) : M W A :=
  fun w => match c w with
           | (Return a, w') => (Return a, w')
           | (Raise e, w') => handler e w'
           end.

Notation "'do' x <- c ; k" := (seq c (fun x => k))
  (at level 10, x pattern, c at level 100, k at level 200,
   format "'[v' 'do'  x  <-  c ; '/' k ']'").
Notation "'do_' c ; k" := (seq c (fun _ => k))
  (at level 10, c at level 100, k at level 200,
   format "'[v' 'do_'  c ; '/' k ']'").

(** [except ValueError: raise HTTPError(http.BAD_REQUEST)] *)
Definition value_error_is_bad_request {W A} (e : exn) : M W A :=
  match e with
  | ValueError => raise (HTTPError BAD_REQUEST [])
  | _ => raise e
  end.

(** ** project_reorder_components *)

Module Reorder.
Section Reorder.

(** Stored objects (nodes and pointers), compared and hashed by identity. *)
Context {Obj : Type} `{Countable Obj}.

(** [n.is_deleted] *)
Variable is_deleted : Obj -> bool.

(** [StoredObject.get_collection(schema).load(key)]: raises for an unknown
    schema, returns [None] for an unknown key. *)
Variable load : string -> key -> result (option Obj).

(** [node.nodes] of the node object in memory and of its persisted
    record. *)
Record World := mkWorld {
  nodes : list Obj;
  stored_nodes : list Obj
}.

Definition set_nodes (l : list Obj) (w : World) : World :=
  mkWorld l (stored_nodes w).

(** [node.save()] *)
Definition save (w : World) : World :=
  mkWorld (nodes w) (nodes w).

(** [for key, schema in new_list]: unpacking a tuple that has not two
    parts raises. *)
Definition load_entry (n : string) : result (option Obj) :=
  match str_split ":" n with
  | [key; schema] => load schema key
  | _ => Raise ValueError
  end.

Definition nodes_new_of (new_list : list string) : result (list (option Obj)) :=
  for_each load_entry new_list.

Definition valid_nodes (w : World) : list Obj :=
  List.filter (fun n => negb (is_deleted n)) (nodes w).

Definition deleted_nodes (w : World) : list Obj :=
  List.filter is_deleted (nodes w).

(** [set(valid_nodes) == set(nodes_new)] *)
Definition same_set (valid : list Obj) (new : list (option Obj)) : bool :=
  bool_decide ((list_to_set (Some <$> valid) : gset (option Obj)) = list_to_set new).

(** The loaded objects of [nodes_new]; where the two sets are equal no
    entry of [nodes_new] is [None] and nothing is dropped. *)
Definition loaded (new : list (option Obj)) : list Obj := omap id new.

Definition project_reorder_components (new_list : list string) (w : World)
  : result unit * World :=
  match nodes_new_of new_list with
  | Raise e => (Raise e, w)
  | Return nodes_new =>
      if (length (valid_nodes w) =? length nodes_new)%nat
         && same_set (valid_nodes w) nodes_new
      then (Return tt, save (set_nodes (loaded nodes_new ++ deleted_nodes w) w))
      else (Raise (HTTPError BAD_REQUEST []), w)
  end.

End Reorder.

(** Sample nodes. *)

(** Every key loads to the object of that key. *)
Definition load_any (schema : string) (k : key) : result (option string) :=
  Return (Some k).

(** A node with the active children [a], [b] and the deleted child [c]. *)
Definition sample_world : World (Obj := string) := mkWorld ["a"; "c"; "b"] ["a"; "c"; "b"].
Definition c_deleted (n : string) : bool := String.eqb n "c".

End Reorder.

(** ** _get_children and get_editable_children *)

Module Children.

(** A member of [node.nodes]: a component ([primary]) or a pointer, which is
    not primary and hands every other attribute to the node it points to. *)
Inductive Node :=
| mkNode (primary : bool) (_primary_key : key) (title : string)
    (is_public is_deleted : bool) (parent_id : option key) (nodes : list Node).

Definition primary (n : Node) : bool :=
  match n with mkNode p _ _ _ _ _ _ => p end.
Definition _primary_key (n : Node) : key :=
  match n with mkNode _ k _ _ _ _ _ => k end.
Definition title (n : Node) : string :=
  match n with mkNode _ _ t _ _ _ _ => t end.
Definition is_public (n : Node) : bool :=
  match n with mkNode _ _ _ b _ _ _ => b end.
Definition is_deleted (n : Node) : bool :=
  match n with mkNode _ _ _ _ b _ _ => b end.
Definition parent_id (n : Node) : option key :=
  match n with mkNode _ _ _ _ _ p _ => p end.
Definition nodes (n : Node) : list Node :=
  match n with mkNode _ _ _ _ _ _ l => l end.

(** [node.nodes_primary] *)
Definition nodes_primary (n : Node) : list Node :=
  List.filter primary (nodes n).

(** One dictionary of the returned list. *)
Record Entry := mkEntry {
  entry_id : key;
  entry_title : string;
  entry_indent : nat;
  entry_is_public : bool;
  entry_parent_id : option key
}.

Definition entry_of (child : Node) (indent : nat) : Entry :=
  mkEntry (_primary_key child) (title child) indent (is_public child) (parent_id child).

Section Children.

(** [child.has_permission(user, permission)] *)
Variable has_permission : Node -> User -> Permission -> bool.
Variable user : User.

(** The test of the loop. *)
Definition editable (child : Node) : bool :=
  negb (is_deleted child) && has_permission child user ADMIN.

(** The loop runs over [nodes_primary]; the filter on [primary] is written
    in the loop body so that the recursion is structural (see
    [_get_children_eq]). *)
Fixpoint _get_children (node : Node) (indent : nat) : list Entry :=
  match node with
  | mkNode _ _ _ _ _ _ children =>
      flat_map (fun child =>
                  if primary child && editable child
                  then entry_of child indent :: _get_children child (S indent)
                  else [])
               children
  end.

Record EditableChildren := mkEditableChildren {
  node_id : key;
  node_title : string;
  node_is_public : bool;
  children : list Entry
}.

Definition get_editable_children (node : Node) : EditableChildren :=
  mkEditableChildren (_primary_key node) (title node) (is_public node)
    (_get_children node 0).

(** [c] is reached from [n] by going down [S d] times, each time to a
    primary child that is not deleted and that the user administers. *)
Inductive editable_path : Node -> nat -> Node -> Prop :=
| path_child n c :
    In c (nodes_primary n) -> editable c = true -> editable_path n 0 c
| path_below n m d c :
    In m (nodes_primary n) -> editable m = true ->
    editable_path m d c -> editable_path n (S d) c.

End Children.

(** [c] is below [n] in the tree. *)
Inductive descendant : Node -> Node -> Prop :=
| desc_child n c : In c (nodes n) -> descendant n c
| desc_below n m c : In m (nodes n) -> descendant m c -> descendant n c.

(** The node with another list of children. *)
Definition with_nodes (n : Node) (l : list Node) : Node :=
  match n with mkNode p k t pub del par _ => mkNode p k t pub del par l end.

(** Sample tree: below the root, the component [a] with the components
    [a1] and [a2], the deleted component [b] with the component [b1], and a
    pointer; the user administers every node but [a2]. *)
Definition a1 : Node := mkNode true "a1" "A1" false false (Some "a") [].
Definition a2 : Node :=
  mkNode true "a2" "A2" false false (Some "a")
    [mkNode true "a2x" "A2X" false false (Some "a2") []].
Definition a : Node := mkNode true "a" "A" true false (Some "r") [a1; a2].
Definition b : Node :=
  mkNode true "b" "B" false true (Some "r")
    [mkNode true "b1" "B1" false false (Some "b") []].
Definition ptr : Node := mkNode false "x" "X" true false None [].
Definition root : Node := mkNode true "r" "R" true false None [a; b; ptr].
Definition sample_has_permission (n : Node) (u : User) (p : Permission) : bool :=
  negb (String.eqb (_primary_key n) "a2").

End Children.

(** ** component_remove *)

Module Remove.

(** The attributes of a node that the view reads, with the chain of its
    parents. *)
Inductive Node :=
| mkNode (_id : key) (url : string) (is_deleted : bool) (parent : option Node).

Definition _id (n : Node) : key :=
  match n with mkNode k _ _ _ => k end.
Definition url (n : Node) : string :=
  match n with mkNode _ u _ _ => u end.
Definition is_deleted (n : Node) : bool :=
  match n with mkNode _ _ d _ => d end.
Definition parent (n : Node) : option Node :=
  match n with mkNode _ _ _ p => p end.

(** Modelled from the spec: [Node.parent_node] and the back-reference list
    [node__parent] of [website.project.model], which are not part of this
    file.  A node has exactly one parent reference, null for a top-level
    project. *)
Definition parent_node (n : Node) : option Node := parent n.
Definition node__parent (n : Node) : list Node :=
  match parent n with
  | Some p => [p]
  | None => []
  end.

Section Remove.

(** The actor of the request. *)
Context {Auth : Type}.

(** [parent.can_view(auth)] *)
Variable can_view : Node -> Auth -> bool.

(** [node.remove_node(auth)]: raises, or leaves the node as returned. *)
Variable remove_node : Node -> Auth -> result Node.

(** The world of the view: the persisted record of the node.  The status
    message pushed for the session, which no result depends on, is left
    out. *)
Record World := mkWorld {
  stored : Node
}.

Definition component_remove (auth : Auth) (node : Node) (w : World)
  : result string * World :=
  match remove_node node auth with
  | Raise (NodeStateError message) =>
      (Raise (HTTPError BAD_REQUEST
                [("message_short", "Error");
                 ("message_long", ("Could not delete component: " ++ message)%string)]), w)
  | Raise e => (Raise e, w)
  | Return node =>
      let w := mkWorld node in
      let redirect_url :=
        match parent_node node with
        | Some parent =>
            if can_view parent auth then
              match node__parent node with
              | p :: _ => Return (url p)
              | [] => Raise IndexError
              end
            else Return "/dashboard/"
        | None => Return "/dashboard/"
        end in
      (redirect_url, w)
  end.

(** The nearest ancestor that the actor can view, in the words of the
    specification. *)
Fixpoint nearest_viewable_ancestor (auth : Auth) (n : Node) : option Node :=
  match n with
  | mkNode _ _ _ None => None
  | mkNode _ _ _ (Some p) =>
      if can_view p auth then Some p else nearest_viewable_ancestor auth p
  end.

(** What the specification returns for redirection. *)
Definition redirect_of (a : option Node) : string :=
  match a with
  | Some n => url n
  | None => "/dashboard/"
  end.

End Remove.

(** Sample tree: a public project [g], below it a private component [p]
    and below that the component [n]; the actor can view [g] and [n]. *)
Definition g : Node := mkNode "g" "/g/" false None.
Definition p : Node := mkNode "p" "/p/" false (Some g).
Definition n : Node := mkNode "n" "/n/" false (Some p).
Definition sample_can_view (x : Node) (auth : User) : bool :=
  negb (String.eqb (_id x) "p").
Definition sample_remove_node (x : Node) (auth : User) : result Node :=
  Return (mkNode (_id x) (url x) true (parent x)).
Definition sample_world : World := mkWorld n.

(** The component [c] directly below [g]. *)
Definition c : Node := mkNode "c" "/c/" false (Some g).

End Remove.

(** ** Pointers: _add_pointers, add_pointers, move_pointers *)

Module Pointers.

(** A pointer held in [node.nodes]: its key, the key of the node it points
    to and its tombstone. *)
Record Pointer := mkPointer {
  _id : nat;
  node : key;
  is_deleted : bool
}.

(** The pointers among [node.nodes]. *)
Record Node := mkNode {
  pointers : list Pointer
}.

(** The node objects in memory, the persisted records, and the next free
    pointer key. *)
Record World := mkWorld {
  mem : gmap key Node;
  db : gmap key Node;
  fresh : nat
}.

(** [Node.load(key)]: a handle on the object, [None] for an unknown key. *)
Definition Node_load (w : World) (k : key) : option key :=
  if mem w !! k is Some _ then Some k else None.

(** [Pointer.load(key)]: [None] for the key [None]. *)
Definition Pointer_load (w : World) (k : option nat) : option nat := k.

Definition object (w : World) (k : key) : Node :=
  default (mkNode []) (mem w !! k).

Definition record (w : World) (k : key) : Node :=
  default (mkNode []) (db w !! k).

(** [node.save()] *)
Definition save (k : key) : M World unit :=
  fun w => (Return tt, mkWorld (mem w) (<[k := object w k]> (db w)) (fresh w)).

Definition points_to (target : key) (p : Pointer) : bool :=
  negb (is_deleted p) && String.eqb (node p) target.

(** The active pointers of a node to a target. *)
Definition active_pointers (n : Node) (target : key) : list Pointer :=
  List.filter (points_to target) (pointers n).

(** Modelled from the spec: [Node.pointing_at] of [website.project.model],
    which is not part of this file.  It resolves the existing pointer from
    the node to the target: the key of that pointer, or [None]. *)
Definition pointing_at (n : Node) (target : key) : option nat :=
  match active_pointers n target with
  | p :: _ => Some (_id p)
  | [] => None
  end.

Definition owns (n : Node) (pointer : nat) : bool :=
  existsb (fun p => negb (is_deleted p) && Nat.eqb (_id p) pointer) (pointers n).

Definition tombstone (pointer : nat) (p : Pointer) : Pointer :=
  if negb (is_deleted p) && Nat.eqb (_id p) pointer
  then mkPointer (_id p) (node p) true else p.

(** Modelled from the spec: [Node.rm_pointer] of [website.project.model],
    which is not part of this file.  It fails with [ValueError] if the
    pointer is not an active pointer owned by the host, and otherwise
    soft-deletes it on the node object. *)
Definition rm_pointer (host : key) (pointer : nat) : M World unit :=
  fun w =>
    if owns (object w host) pointer then
      (Return tt,
       mkWorld (<[host := mkNode (map (tombstone pointer) (pointers (object w host)))]> (mem w))
               (db w) (fresh w))
    else (Raise ValueError, w).

Section Pointers.

(** The target is an ancestor or a descendant of the host in the tree. *)
Variable related : key -> key -> bool.

(** Modelled from the spec: [Node.add_pointer] of [website.project.model],
    which is not part of this file.  It fails with [ValueError] if the
    target equals the host, if the host already points to the target with
    an active pointer, or if the target is an ancestor or descendant of the
    host in the tree; otherwise it adds a pointer to the node object, and
    saves the node when [save] is set.  A target that is [None] has no
    attribute to read. *)
Definition add_pointer (host : key) (target : option key) (save_ : bool)
  : M World unit :=
  match target with
  | None => raise AttributeError
  | Some t =>
      fun w =>
        if String.eqb t host
           || (if active_pointers (object w host) t is [] then false else true)
           || related host t
        then (Raise ValueError, w)
        else
          let n := mkNode (pointers (object w host) ++ [mkPointer (fresh w) t false]) in
          let w' := mkWorld (<[host := n]> (mem w)) (db w) (S (fresh w)) in
          if save_ then save host w' else (Return tt, w')
  end.

(** The loop of [_add_pointers], with its flag. *)
Fixpoint _add_pointers_loop (host : key) (pointers : list (option key))
    (added : bool) : M World bool :=
  match pointers with
  | [] => ret added
  | pointer :: rest =>
      do_ add_pointer host pointer false;
      _add_pointers_loop host rest true
  end.

Definition _add_pointers (host : key) (pointers : list (option key))
  : M World unit :=
  do added <- _add_pointers_loop host pointers false;
  if added then save host else ret tt.

(** The body of the view [add_pointers]; the decorators
    [must_have_permission(WRITE)] and [must_not_be_registration] wrap it. *)
Definition add_pointers (host : key) (node_ids : option (list key))
  : M World unit :=
  match node_ids with
  | None | Some [] => raise (HTTPError BAD_REQUEST [])
  | Some node_ids =>
      fun w =>
        let nodes := map (Node_load w) node_ids in
        try_except (_add_pointers host nodes) value_error_is_bad_request w
  end.

(** The loop of [move_pointers]. *)
Fixpoint move_pointers_loop (from_node to_node : key) (pointers_to_move : list key)
  : M World unit :=
  match pointers_to_move with
  | [] => ret tt
  | pointer_to_move :: rest =>
      fun w =>
        let pointer_id := pointing_at (object w from_node) pointer_to_move in
        let pointer_node := Node_load w pointer_to_move in
        match Pointer_load w pointer_id with
        | None => (Raise (HTTPError BAD_REQUEST []), w)
        | Some pointer =>
            (do_ try_except (rm_pointer from_node pointer) value_error_is_bad_request;
             do_ save from_node;
             do_ try_except (_add_pointers to_node [pointer_node])
                            value_error_is_bad_request;
             move_pointers_loop from_node to_node rest) w
        end
  end.

(** The view [move_pointers]; it returns [{}, 200, None]. *)
Definition move_pointers (from_node_id to_node_id : option key)
    (pointers_to_move : option (list key)) : M World unit :=
  match from_node_id, to_node_id, pointers_to_move with
  | Some from_node_id, Some to_node_id, Some pointers_to_move =>
      fun w =>
        match Node_load w from_node_id, Node_load w to_node_id with
        | Some from_node, Some to_node =>
            move_pointers_loop from_node to_node pointers_to_move w
        | _, _ => (Raise (HTTPError BAD_REQUEST []), w)
        end
  | _, _, _ => raise (HTTPError BAD_REQUEST [])
  end.

(** A target that [add_pointer] accepts on the host. *)
Definition accepted (w : World) (host target : key) : bool :=
  negb (String.eqb target host)
  && (if active_pointers (object w host) target is [] then true else false)
  && negb (related host target).

(** A target that [add_pointer] rejects on the host: it is the host, the
    host already points to it, or the two are related in the tree. *)
Definition rejected (w : World) (host target : key) : Prop :=
  target = host
  \/ active_pointers (object w host) target <> []
  \/ related host target = true.

End Pointers.

(** The world after an accepted [add_pointer] that does not save. *)
Definition added (w : World) (host t : key) : World :=
  mkWorld (<[host := mkNode (pointers (object w host) ++ [mkPointer (fresh w) t false])]> (mem w))
          (db w) (S (fresh w)).

(** The world after the pointer [p] of [from_node] is removed and
    [from_node] is saved. *)
Definition removed (w : World) (from_node : key) (p : Pointer) : World :=
  let n := mkNode (map (tombstone (_id p)) (pointers (object w from_node))) in
  mkWorld (<[from_node := n]> (mem w)) (<[from_node := n]> (db w)) (fresh w).

(** The pointers that a batch adds, keyed from [start] on. *)
Fixpoint new_pointers (start : nat) (targets : list key) : list Pointer :=
  match targets with
  | [] => []
  | t :: ts => mkPointer start t false :: new_pointers (S start) ts
  end.

(** Sample world: the nodes [a], [b] and [c], with one pointer from [a] to
    [b]; no two of them are related in the tree. *)
Definition sample_nodes : gmap key Node :=
  <["a" := mkNode [mkPointer 0 "b" false]]>
    (<["b" := mkNode []]> (<["c" := mkNode []]> ∅)).
Definition sample_world : World := mkWorld sample_nodes sample_nodes 1.
Definition unrelated (host target : key) : bool := false.

End Pointers.

(** ** Permissions and decorators *)

Module Permissions.

(** The attributes of a node that the guards and the guarded views read or
    write, with the chain of its parents. *)
Inductive Node :=
| mkNode (_id : key) (url : string) (is_public is_retracted archiving : bool)
    (permissions : list (User * Permission)) (parent : option Node).

Definition _id (n : Node) : key :=
  match n with mkNode k _ _ _ _ _ _ => k end.
Definition url (n : Node) : string :=
  match n with mkNode _ u _ _ _ _ _ => u end.
Definition is_public (n : Node) : bool :=
  match n with mkNode _ _ b _ _ _ _ => b end.
Definition is_retracted (n : Node) : bool :=
  match n with mkNode _ _ _ b _ _ _ => b end.
Definition archiving (n : Node) : bool :=
  match n with mkNode _ _ _ _ b _ _ => b end.
Definition permissions (n : Node) : list (User * Permission) :=
  match n with mkNode _ _ _ _ _ l _ => l end.
Definition parent (n : Node) : option Node :=
  match n with mkNode _ _ _ _ _ _ p => p end.

(** The actor of a request; [user] is [None] when nobody is logged in. *)
Record Auth := mkAuth {
  user : option User
}.

(** none < read < write < admin *)
Definition level (p : option Permission) : nat :=
  match p with
  | None => 0
  | Some READ => 1
  | Some WRITE => 2
  | Some ADMIN => 3
  end.

(** The explicit entry of the user in the contributor mapping. *)
Definition explicit (n : Node) (u : User) : option Permission :=
  assoc u (permissions n).

(** The user holds admin on a strict ancestor of the node. *)
Fixpoint admin_above (u : User) (n : Node) : bool :=
  match n with
  | mkNode _ _ _ _ _ _ None => false
  | mkNode _ _ _ _ _ _ (Some p) =>
      (if explicit p u is Some ADMIN then true else false) || admin_above u p
  end.

(** Modelled from the spec: [effective_permission(user, node)] of the
    permission model, which is not part of this file.  It looks up an
    explicit entry for the user; if absent, it checks whether the user holds
    admin on any strict ancestor; if still absent and the node is public it
    gives read; otherwise none. *)
Definition effective_permission (auth : Auth) (n : Node) : option Permission :=
  match user auth with
  | Some u =>
      match explicit n u with
      | Some l => Some l
      | None =>
          if admin_above u n then Some ADMIN
          else if is_public n then Some READ else None
      end
  | None => if is_public n then Some READ else None
  end.

(** Modelled from the spec: [require(user, node, level)], which fails with
    [PermissionDenied] if the effective permission is below the level. *)
Definition require (auth : Auth) (n : Node) (l : Permission) : result unit :=
  if (level (Some l) <=? level (effective_permission auth n))%nat
  then Return tt else Raise PermissionsError.

(** A decorator that is not part of this file and that the specification
    does not describe ([must_be_valid_project], [must_be_logged_in]): it
    lets the call through ([None]) or ends it before the view runs. *)
Definition guarded {W A} (check : option exn) (view : M W A) : M W A :=
  match check with
  | None => view
  | Some e => raise e
  end.

End Permissions.

(** ** project_set_privacy *)

Module Privacy.
Import Permissions.

(** Modelled from the spec: the decorator [must_have_permission] of
    [website.project.decorators], which is not part of this file.  It is
    the guard [require], run on the node of the request before the view. *)
Definition must_have_permission {A} (l : Permission) (auth : Auth)
    (view : M Node A) : M Node A :=
  fun node =>
    match require auth node l with
    | Return _ => view node
    | Raise e => (Raise e, node)
    end.

Definition with_public (b : bool) (n : Node) : Node :=
  mkNode (_id n) (url n) b (is_retracted n) (archiving n) (permissions n) (parent n).

Section Privacy.

Variable must_be_valid_project : Node -> option exn.

(** The message of the [NodeStateError] of a blocked transition. *)
Variable state_error_message : Node -> string.

(** Modelled from the spec: [Node.set_privacy] of [website.project.model],
    which is not part of this file.  The transition requires admin; it fails
    with [NodeStateError] when it is not permitted, which is making a
    retracted or archiving node public; otherwise the node takes the
    requested state.  A value that names no state changes nothing. *)
Definition set_privacy (permissions : string) (auth : Auth) : M Node unit :=
  fun node =>
    match require auth node ADMIN with
    | Raise e => (Raise e, node)
    | Return _ =>
        if String.eqb permissions "public" then
          if is_retracted node || archiving node
          then (Raise (NodeStateError (state_error_message node)), node)
          else (Return tt, with_public true node)
        else if String.eqb permissions "private" then
          (Return tt, with_public false node)
        else (Return tt, node)
    end.

(** [except NodeStateError as e: raise HTTPError(http.BAD_REQUEST, ...)] *)
Definition state_error_is_bad_request {A} (e : exn) : M Node A :=
  match e with
  | NodeStateError message =>
      raise (HTTPError BAD_REQUEST
               [("message_short", "Can't change privacy");
                ("message_long", message)])
  | _ => raise e
  end.

(** The body of the view; [permissions] is the keyword argument of the
    route.  It returns the status and the permissions. *)
Definition project_set_privacy_body (auth : Auth) (permissions : option string)
  : M Node (string * string) :=
  match permissions with
  | None => raise (HTTPError BAD_REQUEST [])
  | Some permissions =>
      do_ try_except (set_privacy permissions auth) state_error_is_bad_request;
      ret ("success", permissions)
  end.

(** The view under its decorators, outermost first. *)
Definition project_set_privacy (auth : Auth) (permissions : option string)
  : M Node (string * string) :=
  fun node =>
    guarded (must_be_valid_project node)
      (must_have_permission ADMIN auth (project_set_privacy_body auth permissions))
      node.

End Privacy.

(** Sample nodes: a private project with the admin [ann] and the reader
    [bob], and the same project while it is archiving. *)
Definition project : Node :=
  mkNode "p" "/p/" false false false [("ann", ADMIN); ("bob", READ)] None.
Definition archiving_project : Node :=
  mkNode "p" "/p/" false false true [("ann", ADMIN); ("bob", READ)] None.
Definition always_valid (n : Node) : option exn := None.
Definition sample_message (n : Node) : string := "blocked".

End Privacy.

(** ** node_fork_page *)

Module Fork.
Import Permissions.

Section Fork.

(** The stored nodes. *)
Context {World : Type}.

Variable must_be_logged_in : Auth -> option exn.
Variable must_be_valid_project : Node -> option exn.

(** [settings.DISK_SAVING_MODE] and the status of the error raised under
    it. *)
Variable DISK_SAVING_MODE : bool.
Variable disk_saving_status : http_status.

(** The fork engine: the fork of the node for the actor and the world with
    the nodes it created. *)
Variable fork : Node -> Auth -> World -> Node * World.

(** Modelled from the spec: the decorator [http_error_if_disk_saving_mode]
    of [website.project.decorators], which is not part of this file.  It
    fails when the system-wide storage-conservation mode is active. *)
Definition http_error_if_disk_saving_mode {A} (view : M World A) : M World A :=
  if DISK_SAVING_MODE then raise (HTTPError disk_saving_status []) else view.

(** Modelled from the spec: [Node.fork_node] of [website.project.model],
    which is not part of this file.  It requires the actor to have at least
    read access, fails with [PermissionDenied] otherwise, and produces the
    fork. *)
Definition fork_node (node : Node) (auth : Auth) : M World Node :=
  fun w =>
    match require auth node READ with
    | Raise e => (Raise e, w)
    | Return _ => let (f, w') := fork node auth w in (Return f, w')
    end.

(** [except PermissionsError: raise HTTPError(http.FORBIDDEN, ...)] *)
Definition permissions_error_is_forbidden {A} (node : Node) (e : exn) : M World A :=
  match e with
  | PermissionsError => raise (HTTPError FORBIDDEN [("redirect_url", url node)])
  | _ => raise e
  end.

(** The body of the view; it returns [fork.url]. *)
Definition node_fork_page_body (auth : Auth) (node : Node) : M World string :=
  do fork <- try_except (fork_node node auth) (permissions_error_is_forbidden node);
  ret (url fork).

(** The view under its decorators, outermost first. *)
Definition node_fork_page (auth : Auth) (node : Node) : M World string :=
  guarded (must_be_logged_in auth)
    (guarded (must_be_valid_project node)
       (http_error_if_disk_saving_mode (node_fork_page_body auth node))).

End Fork.

(** Sample world: the list of the forks made so far. *)
Definition sample_fork (node : Node) (auth : Auth) (w : list Node) : Node * list Node :=
  let f := mkNode (_id node ++ "-fork")%string ("/" ++ _id node ++ "-fork/")%string
             false false false
             (if user auth is Some u then [(u, ADMIN)] else []) None in
  (f, w ++ [f]).
Definition logged_in (auth : Auth) : option exn :=
  if user auth is Some _ then None else Some (HTTPError UNAUTHORIZED []).

End Fork.

(** ** update_node *)

Module Update.

(** The attributes of the node object in memory and of its persisted
    record. *)
Record World := mkWorld {
  attrs : gmap string json;
  stored : gmap string json
}.

(** [node.save()] *)
Definition save : M World unit :=
  fun w => (Return tt, mkWorld (attrs w) (attrs w)).

(** [getattr(node, key)] *)
Definition getattr (w : World) (key : string) : result json :=
  match attrs w !! key with
  | Some v => Return v
  | None => Raise AttributeError
  end.

(** The fields that the comment of [update_node] gives as the content of
    [node.WRITABLE_WHITELIST]: category, title and description. *)
Definition category_title_description : list string :=
  ["category"; "title"; "description"].

(** Permissions, tree links and audit fields of a node. *)
Definition protected_fields : list string :=
  ["permissions"; "contributors"; "visible_contributor_ids"; "creator";
   "nodes"; "parent_node"; "is_public"; "is_deleted"; "is_registration";
   "logs"; "date_created"; "date_modified"].

Section Update.

(** [Node.WRITABLE_WHITELIST] of [website.project.model], a constant that
    is not part of this file. *)
Variable WRITABLE_WHITELIST : list string.

(** [rapply(collection, strip_html)] on the request dictionary. *)
Variable r_strip_html : gmap string json -> gmap string json.

(** [old != new] on attribute values. *)
Variable differs : json -> json -> bool.

(** [validate_title] of [website.project.model]. *)
Variable validate_title : json -> bool.

(** The [reason] of the [NodeUpdateError] for a field. *)
Variable reason : string -> string.

(** [[str(tag) for tag in node.tags]] *)
Variable tags_as_strings : gmap string json -> json.

Definition writable (key : string) : bool :=
  existsb (String.eqb key) WRITABLE_WHITELIST.

(** The value differs from the attribute the node has. *)
Definition changed (a : gmap string json) (key : string) (value : json) : bool :=
  match a !! key with
  | Some old => differs old value
  | None => true
  end.

(** The first field, in the order of iteration, that is not on the
    whitelist. *)
Definition offending (fields : list (string * json)) : option string :=
  match List.find (fun kv => negb (writable kv.1)) fields with
  | Some kv => Some kv.1
  | None => None
  end.

Fixpoint apply_fields (fields : list (string * json)) (names : list string)
  : M World (list string) :=
  match fields with
  | [] => ret names
  | (key, value) :: rest =>
      fun w =>
        if String.eqb key "title" && negb (validate_title value) then
          (Raise ValidationValueError, w)
        else if changed (attrs w) key value then
          apply_fields rest (names ++ [key])
            (mkWorld (<[key := value]> (attrs w)) (stored w))
        else apply_fields rest names w
  end.

(** Modelled from the spec: [Node.update] of [website.project.model], which
    is not part of this file.  Only the fields of the whitelist may be
    changed through it; attempting another fails with [NodeUpdateError]
    naming the offending field; a title goes through the validation of
    creation; it returns the names of the changed fields. *)
Definition update (fields : gmap string json) : M World (list string) :=
  match offending (map_to_list fields) with
  | Some key => raise (NodeUpdateError key (reason key))
  | None => apply_fields (map_to_list fields) []
  end.

(** [except NodeUpdateError as e: raise HTTPError(400, ...)] *)
Definition update_error_is_bad_request {A} (e : exn) : M World A :=
  match e with
  | NodeUpdateError key reason =>
      raise (HTTPError BAD_REQUEST
               [("message_short", ("Failed to update attribute '" ++ key ++ "'")%string);
                ("message_long", reason)])
  | _ => raise e
  end.

(** [if key != 'logs' and key != 'date_modified'] *)
Definition reported (key : string) : bool :=
  negb (String.eqb key "logs") && negb (String.eqb key "date_modified").

(** [getattr(node, key) if key != 'tags' else [str(tag) for tag in
    node.tags]] *)
Definition field_value (w : World) (key : string) : result json :=
  if negb (String.eqb key "tags") then getattr w key
  else Return (tags_as_strings (attrs w)).

(** The dictionary comprehension of the view. *)
Definition updated_fields_dict (updated_field_names : list string) (w : World)
  : result (list (string * json)) :=
  for_each (fun key => let* v := field_value w key in Return (key, v))
           (List.filter reported updated_field_names).

(** The body of the view; the decorators [must_be_valid_project],
    [must_not_be_registration] and [must_have_permission(WRITE)] wrap it.
    It returns the entries of ['updated_fields']. *)
Definition update_node (request_json : gmap string json)
  : M World (list (string * json)) :=
  let data := r_strip_html request_json in
  do updated_field_names <- try_except (update data) update_error_is_bad_request;
  do updated_fields_dict <- (fun w => (updated_fields_dict updated_field_names w, w));
  do_ save;
  ret updated_fields_dict.

(** The value that the view reports for a field that was set to [new]. *)
Definition shown_value (w : World) (key : string) (new : json) : json :=
  if String.eqb key "tags" then tags_as_strings (attrs w) else new.

End Update.

(** Sample node and requests. *)
Definition sample_world : World :=
  let a : gmap string json :=
    <["title" := JStr "Old"]> (<["category" := JStr "project"]>
      (<["is_public" := JBool false]> ∅)) in
  mkWorld a a.
Definition no_strip (d : gmap string json) : gmap string json := d.
Definition sample_differs (old new : json) : bool :=
  match old, new with
  | JStr a, JStr b => negb (String.eqb a b)
  | _, _ => true
  end.
Definition sample_validate_title (v : json) : bool :=
  match v with
  | JStr s => negb (String.eqb s "")
  | _ => false
  end.
Definition sample_reason (key : string) : string := "not writable".
Definition sample_tags (a : gmap string json) : json := JList [].

(** A request that names a field outside the whitelist, and one that
    renames the node and repeats its category. *)
Definition refused_request : gmap string json :=
  <["title" := JStr "New"]> (<["is_public" := JBool true]> ∅).
Definition accepted_request : gmap string json :=
  <["title" := JStr "New"]> (<["category" := JStr "project"]> ∅).

End Update.

(** ** search_node *)

Module Search.

(** Python floats, as far as the view uses them.  Their arithmetic is kept
    abstract: the view only passes its results on. *)
Class FloatOps (F : Type) := {
  (** [float(s)]; [None] when the string is no number ([ValueError]) *)
  float_of_string : string -> option F;
  (** [page * size] for a number [page]; [None] when [page] is an integer
      too large to be converted to a float ([OverflowError]) *)
  mul_num : Q -> F -> option F;
  (** [start + size] *)
  add : F -> F -> F;
  (** [math.ceil(count / size)]; [None] when [size] is zero *)
  ceil_div : nat -> F -> option F;
  (** a bound of [islice]; [None] when it is not acceptable ([ValueError]) *)
  to_index : F -> option nat
}.

(** A contributor shown on a node. *)
Record Contributor := mkContributor {
  family_name : string;
  given_name : string;
  full_name : string
}.

(** The attributes of a stored node that the view reads. *)
Record Node := mkNode {
  _id : key;
  title : string;
  is_deleted : bool;
  is_collection : bool;
  is_public : bool;
  is_registration : bool;
  contributors : list User;
  visible_contributors : list Contributor;
  node_ids : list key
}.

(** [Node.load(key)] on the stored nodes; a key that is no string loads
    nothing. *)
Definition Node_load (store : list Node) (k : json) : option Node :=
  match k with
  | JStr k => List.find (fun n => String.eqb (_id n) k) store
  | _ => None
  end.

(** The queries that the view builds with [Q], [&] and [|]. *)
Inductive query :=
| title_icontains (s : string)
| is_deleted_eq (b : bool)
| contributors_eq (u : User)
| is_collection_eq (b : bool)
| is_public_eq (b : bool)
| _id_nin (l : list key)
| q_and (a b : query)
| q_or (a b : query).

(** One serialized node of the result. *)
Record Serialized := mkSerialized {
  s_id : key;
  s_title : string;
  s_firstAuthor : string;
  s_etal : bool
}.

(** The returned dictionary: ['nodes'], and ['total'], ['pages'] and
    ['page'] when the search ran. *)
Record Response {F : Type} := mkResponse {
  nodes : list Serialized;
  paging : option (nat * F * json)
}.
Arguments Response F : clear implicits.
Arguments mkResponse {F} nodes paging.

(** [a or b] on strings *)
Definition str_or (a b : string) : string :=
  if String.eqb a "" then b else a.

Definition _serialize_node_search (node : Node) : result Serialized :=
  let title :=
    if is_registration node then (title node ++ " (registration)")%string
    else title node in
  match visible_contributors node with
  | [] => Raise IndexError
  | first_author :: _ =>
      Return (mkSerialized (_id node) title
                (str_or (family_name first_author)
                   (str_or (given_name first_author) (full_name first_author)))
                (1 <? length (visible_contributors node))%nat)
  end.

(** [islice(nodes, start, stop)] *)
Definition islice {A} (l : list A) (start stop : nat) : list A :=
  firstn (stop - start) (skipn start l).

Section Search.

Context {F : Type} `{FloatOps F}.

(** [title] contains [s], whatever the case. *)
Variable icontains : string -> string -> bool.

(** [validate_page_num(page, pages)] of [website.views]: it lets the call
    through or raises. *)
Variable validate_page_num : json -> F -> option exn.

Fixpoint matches (q : query) (n : Node) : bool :=
  match q with
  | title_icontains s => icontains (title n) s
  | is_deleted_eq b => Bool.eqb (is_deleted n) b
  | contributors_eq u => existsb (String.eqb u) (contributors n)
  | is_collection_eq b => Bool.eqb (is_collection n) b
  | is_public_eq b => Bool.eqb (is_public n) b
  | _id_nin l => negb (existsb (String.eqb (_id n)) l)
  | q_and a b => matches a n && matches b n
  | q_or a b => matches a n || matches b n
  end.

(** [Node.find(query)] *)
Definition Node_find (store : list Node) (q : query) : list Node :=
  List.filter (matches q) store.

Definition or_raise {A} (e : exn) (o : option A) : result A :=
  match o with
  | Some a => Return a
  | None => Raise e
  end.

(** [page * size]: a number, or a boolean as the number it is, is converted
    to a float, which raises for an integer beyond the range of floats;
    anything else cannot be multiplied by a float. *)
Definition mul_page (page : json) (size : F) : result F :=
  match page with
  | JNum q => or_raise OverflowError (mul_num q size)
  | JBool b => or_raise OverflowError (mul_num (if b then 1%Q else 0%Q) size)
  | _ => Raise TypeError
  end.

(** The view, for the logged-in user of the request. *)
Definition search_node (store : list Node) (user : User)
    (request_json : list (string * json)) : result (Response F) :=
  let node := Node_load store (json_get request_json "nodeId") in
  let include_public := json_get request_json "includePublic" in
  let* size_str := json_strip (default (JStr "5") (assoc "size" request_json)) in
  let* size := or_raise ValueError (float_of_string size_str) in
  let page := default (JNum 0%Q) (assoc "page" request_json) in
  let* query := json_strip (default (JStr "") (assoc "query" request_json)) in
  let* start := mul_page page size in
  if String.eqb query "" then Return (mkResponse [] None)
  else
    let title_query := title_icontains query in
    let not_deleted_query := is_deleted_eq false in
    let visibility_query := contributors_eq user in
    let no_folders_query := is_collection_eq false in
    let visibility_query :=
      if truthy include_public then q_or visibility_query (is_public_eq true)
      else visibility_query in
    let odm_query :=
      q_and (q_and (q_and title_query not_deleted_query) visibility_query)
            no_folders_query in
    let odm_query :=
      match node with
      | Some node => q_and odm_query (_id_nin (_id node :: node_ids node))
      | None => odm_query
      end in
    let nodes := Node_find store odm_query in
    let count := length nodes in
    let* pages := or_raise ZeroDivisionError (ceil_div count size) in
    let* _ := (if validate_page_num page pages is Some e then Raise e else Return tt) in
    let* first := or_raise ValueError (to_index start) in
    let* last := or_raise ValueError (to_index (add start size)) in
    let* serialized :=
      for_each _serialize_node_search
        (List.filter (fun each => if contributors each is [] then false else true)
                     (islice nodes first last)) in
    Return (mkResponse serialized (Some (count, pages, page))).

End Search.

(** What the query of the view asks of a node. *)
Definition found (store : list Node) (user : User)
    (request_json : list (string * json)) (n : Node) : Prop :=
  In n store
  /\ is_deleted n = false
  /\ is_collection n = false
  /\ (In user (contributors n)
      \/ (truthy (json_get request_json "includePublic") = true /\ is_public n = true))
  /\ (forall host, Node_load store (json_get request_json "nodeId") = Some host ->
        _id n <> _id host /\ ~ In (_id n) (node_ids host))
  /\ (forall k, json_get request_json "nodeId" = JStr k -> _id n <> k).

(** A float model to run the view on samples: non-negative decimal
    integers, as rationals.  A number of the request with denominator one is
    an integer, and it has no float from [2 ^ 1024] on. *)
Fixpoint digits (s : string) (acc : N) : option N :=
  match s with
  | EmptyString => Some acc
  | String c s' =>
      let d := (N_of_ascii c - 48)%N in
      if (N.leb 48 (N_of_ascii c) && N.leb (N_of_ascii c) 57)%bool
      then digits s' (acc * 10 + d)%N else None
  end.

#[export] Instance sample_floats : FloatOps Q := {|
  float_of_string s :=
    match s with
    | EmptyString => None
    | _ => (fun n => inject_Z (Z.of_N n)) <$> digits s 0%N
    end;
  mul_num q f :=
    if (Pos.eqb (Qden q) 1 && Z.leb (2 ^ 1024) (Z.abs (Qnum q)))%bool then None
    else Some (Qmult q f);
  add a b := Qplus a b;
  ceil_div count f :=
    if Qeq_bool f 0%Q then None
    else Some (inject_Z (Qceiling (Qdiv (inject_Z (Z.of_nat count)) f)));
  to_index f := if Qle_bool 0%Q f then Some (Z.to_nat (Qfloor f)) else None
|}.

Definition sample_icontains (title s : string) : bool :=
  if String.index 0 s title is Some _ then true else false.
Definition any_page (page : json) (pages : Q) : option exn := None.

(** Sample store: the project [p] of [ann] with the component [c], the
    public project [q] of [bob], and a deleted project [d] of [ann]. *)
Definition ann : Contributor := mkContributor "Lee" "Ann" "Ann Lee".
Definition bob : Contributor := mkContributor "Ray" "Bob" "Bob Ray".
Definition sample_store : list Node :=
  [ mkNode "p" "data one" false false false false ["ann"] [ann] ["c"];
    mkNode "c" "data two" false false false false ["ann"] [ann] [];
    mkNode "q" "data three" false false true false ["bob"] [bob] [];
    mkNode "d" "data four" true false false false ["ann"] [ann] [] ].

End Search.

(** ** Further definitions for search_node *)

Module SearchCount.
Import Search.

Section SearchCount.

Variable icontains : string -> string -> bool.

(** What the query of the view asks of a stored node, as a test: the title
    contains the query, the node is not deleted, the user is a contributor
    (or the node is public and [includePublic] is set), the node is no
    collection, and it is neither the node of [nodeId] nor listed in its
    [node_ids]. *)
Definition selected (store : list Node) (user : User)
    (request_json : list (string * json)) (query : string) (n : Node) : bool :=
  icontains (title n) query
  && negb (is_deleted n)
  && (existsb (String.eqb user) (contributors n)
      || truthy (json_get request_json "includePublic") && is_public n)
  && negb (is_collection n)
  && match Node_load store (json_get request_json "nodeId") with
     | Some node =>
         negb (String.eqb (_id n) (_id node))
         && negb (existsb (String.eqb (_id n)) (node_ids node))
     | None => true
     end.

End SearchCount.

End SearchCount.

(** ** configure_comments *)

Module Comments.

(** The attribute of the node that the view writes. *)
Record Node := mkNode {
  _id : key;
  comment_level : option string
}.

(** The node object in memory and its persisted record. *)
Record World := mkWorld {
  node : Node;
  stored : Node
}.

Definition set_comment_level (v : option string) (w : World) : World :=
  mkWorld (mkNode (_id (node w)) v) (stored w).

(** [node.save()] *)
Definition save (w : World) : World :=
  mkWorld (node w) (node w).

(** [comment_level in ['public', 'private']]; on success the string that
    was given. *)
Definition public_or_private (v : json) : option string :=
  match v with
  | JStr s => if String.eqb s "public" || String.eqb s "private"
              then Some s else None
  | _ => None
  end.

(** The body of the view; [must_have_permission(ADMIN)] wraps it. *)
Definition configure_comments (request_json : list (string * json))
    (w : World) : result unit * World :=
  let comment_level := json_get request_json "commentLevel" in
  if negb (truthy comment_level) then
    (Return tt, save (set_comment_level None w))
  else
    match public_or_private comment_level with
    | Some s => (Return tt, save (set_comment_level (Some s) w))
    | None => (Raise (HTTPError BAD_REQUEST []), w)
    end.

(** Sample node, commenting open to the public. *)
Definition sample_world : World :=
  mkWorld (mkNode "n" (Some "public")) (mkNode "n" (Some "public")).

End Comments.

(** ** Further definitions for _get_children *)

Module ChildrenShift.
Import Children.

(** The entry moved [k] levels to the right. *)
Definition shift (k : nat) (e : Entry) : Entry :=
  mkEntry (entry_id e) (entry_title e) (k + entry_indent e)
    (entry_is_public e) (entry_parent_id e).

End ChildrenShift.

(** ** node_child_tree and get_node_tree *)

Module Tree.

(** A user object, as a contributor of a node and as the caller. *)
Record UserObj := mkUserObj {
  user_id : key;
  is_confirmed : bool
}.

(** A member of [node.nodes] with the attributes that the function reads. *)
Inductive Node :=
| mkNode (primary : bool) (_id : key) (url : string) (title : string)
    (is_public is_deleted : bool) (contributors : list UserObj)
    (visible_contributor_ids : list key)
    (project_or_component category : string) (nodes : list Node).

Definition primary (n : Node) : bool :=
  match n with mkNode p _ _ _ _ _ _ _ _ _ _ => p end.
Definition _id (n : Node) : key :=
  match n with mkNode _ k _ _ _ _ _ _ _ _ _ => k end.
Definition url (n : Node) : string :=
  match n with mkNode _ _ u _ _ _ _ _ _ _ _ => u end.
Definition title (n : Node) : string :=
  match n with mkNode _ _ _ t _ _ _ _ _ _ _ => t end.
Definition is_public (n : Node) : bool :=
  match n with mkNode _ _ _ _ b _ _ _ _ _ _ => b end.
Definition is_deleted (n : Node) : bool :=
  match n with mkNode _ _ _ _ _ b _ _ _ _ _ => b end.
Definition contributors (n : Node) : list UserObj :=
  match n with mkNode _ _ _ _ _ _ l _ _ _ _ => l end.
Definition visible_contributor_ids (n : Node) : list key :=
  match n with mkNode _ _ _ _ _ _ _ l _ _ _ => l end.
Definition project_or_component (n : Node) : string :=
  match n with mkNode _ _ _ _ _ _ _ _ s _ _ => s end.
Definition category (n : Node) : string :=
  match n with mkNode _ _ _ _ _ _ _ _ _ s _ => s end.
Definition nodes (n : Node) : list Node :=
  match n with mkNode _ _ _ _ _ _ _ _ _ _ l => l end.

(** One dictionary of ['contributors']. *)
Record ContributorItem := mkContributorItem {
  c_id : key;
  c_is_admin : bool;
  c_is_confirmed : bool
}.

(** One item of the returned list. *)
Inductive Item :=
| mkItem (node_id : key) (node_url node_title : string)
    (node_is_public can_write : bool) (node_contributors : list ContributorItem)
    (node_visible_contributors : list key) (is_admin : bool)
    (item_user_id : key) (children : list Item)
    (kind nodeType item_category : string) (view : bool).

Definition node_id (i : Item) : key :=
  match i with mkItem k _ _ _ _ _ _ _ _ _ _ _ _ _ => k end.
Definition node_url (i : Item) : string :=
  match i with mkItem _ u _ _ _ _ _ _ _ _ _ _ _ _ => u end.
Definition node_title (i : Item) : string :=
  match i with mkItem _ _ t _ _ _ _ _ _ _ _ _ _ _ => t end.
Definition node_is_public (i : Item) : bool :=
  match i with mkItem _ _ _ b _ _ _ _ _ _ _ _ _ _ => b end.
Definition can_write (i : Item) : bool :=
  match i with mkItem _ _ _ _ b _ _ _ _ _ _ _ _ _ => b end.
Definition node_contributors (i : Item) : list ContributorItem :=
  match i with mkItem _ _ _ _ _ l _ _ _ _ _ _ _ _ => l end.
Definition node_visible_contributors (i : Item) : list key :=
  match i with mkItem _ _ _ _ _ _ l _ _ _ _ _ _ _ => l end.
Definition is_admin (i : Item) : bool :=
  match i with mkItem _ _ _ _ _ _ _ b _ _ _ _ _ _ => b end.
Definition children (i : Item) : list Item :=
  match i with mkItem _ _ _ _ _ _ _ _ _ l _ _ _ _ => l end.
Definition nodeType (i : Item) : string :=
  match i with mkItem _ _ _ _ _ _ _ _ _ _ _ s _ _ => s end.
Definition item_category (i : Item) : string :=
  match i with mkItem _ _ _ _ _ _ _ _ _ _ _ _ s _ => s end.
Definition view (i : Item) : bool :=
  match i with mkItem _ _ _ _ _ _ _ _ _ _ _ _ _ b => b end.

(** An item with every item below it. *)
Fixpoint items_of (i : Item) : list Item :=
  match i with
  | mkItem _ _ _ _ _ _ _ _ _ l _ _ _ _ => i :: flat_map items_of l
  end.

Section Tree.

(** [node.has_permission(user, permission)] and
    [node.has_permission_on_children(user, permission)], with the
    permission as the string that is passed. *)
Variable has_permission : Node -> UserObj -> string -> bool.
Variable has_permission_on_children : Node -> UserObj -> string -> bool.

(** The constant [ADMIN] of [website.util.permissions]. *)
Variable ADMIN : string.

(** [not node.node__parent or not node.parent_node.has_permission(user,
    'read')] *)
Variable no_readable_parent : Node -> UserObj -> bool.

Variable user : UserObj.

(** The node is listed: the user can read it or can read below it. *)
Definition shown (node : Node) : bool :=
  has_permission node user "read" || has_permission_on_children node user "read".

(** The body of the loop for one key, whose node [Node.load] has found: no
    item when the node is not shown ([continue]), else its item.  The
    children are the members of [node.nodes] that are primary and not
    deleted; the test is written in the recursion so that it is structural
    (see [item_children]). *)
Fixpoint node_child_tree_of (node : Node) : list Item :=
  match node with
  | mkNode _ node_id _ _ _ _ _ _ _ _ members =>
      let can_read := has_permission node user "read" in
      let can_read_children := has_permission_on_children node user "read" in
      if negb can_read && negb can_read_children then []
      else
        let contributors :=
          map (fun contributor =>
                 mkContributorItem (user_id contributor)
                   (has_permission node contributor ADMIN)
                   (is_confirmed contributor))
              (contributors node) in
        let can_write := has_permission node user "admin" in
        let children :=
          flat_map (fun n => if primary n && negb (is_deleted n)
                             then node_child_tree_of n else [])
                   members in
        [mkItem node_id
           (if can_read then url node else "")
           (if can_read then title node else "Private Project")
           (is_public node) can_write contributors
           (visible_contributor_ids node)
           (has_permission node user ADMIN)
           (user_id user) children
           (if no_readable_parent node user then "folder" else "node")
           (project_or_component node) (category node) can_read]
  end.

(** [node_child_tree(user, node_ids)] on the nodes of the keys. *)
Definition node_child_tree (nodes : list Node) : list Item :=
  flat_map node_child_tree_of nodes.

(** [get_node_tree] *)
Definition get_node_tree (node : Node) : list Item :=
  node_child_tree [node].

(** [n] is the node or is reached from it through members of [nodes] that
    are primary and not deleted, every node on the way, the two ends
    included, being shown. *)
Inductive listed : Node -> Node -> Prop :=
| listed_here top : shown top = true -> listed top top
| listed_below top c n :
    shown top = true -> In c (nodes top) ->
    primary c = true -> is_deleted c = false ->
    listed c n -> listed top n.

End Tree.

(** Sample tree: the user reads the project [p] and its component [c] but
    not the component [h] nor [g] below it; the user can read below [p] and
    below [h]. *)
Definition u : UserObj := mkUserObj "u" true.
Definition g : Node := mkNode true "g" "/g/" "G" false false [u] ["u"] "component" "data" [].
Definition h : Node := mkNode true "h" "/h/" "H" false false [] [] "component" "data" [g].
Definition c : Node := mkNode true "c" "/c/" "C" false false [u] ["u"] "component" "data" [].
Definition p : Node := mkNode true "p" "/p/" "P" true false [u] ["u"] "project" "project" [c; h].
Definition sample_has_permission (n : Node) (who : UserObj) (perm : string) : bool :=
  negb (String.eqb (_id n) "h") && negb (String.eqb (_id n) "g").
Definition sample_on_children (n : Node) (who : UserObj) (perm : string) : bool :=
  String.eqb (_id n) "p" || String.eqb (_id n) "h".
Definition sample_no_parent (n : Node) (who : UserObj) : bool :=
  String.eqb (_id n) "p".

End Tree.

(** ** get_recent_logs *)

Module Logs.

(** The view on the primary keys of [node.logs]:
    [list(reversed(keys))[:3]]. *)
Definition get_recent_logs (logs : list key) : list key :=
  firstn 3 (rev logs).

End Logs.

(** ** add_pointer and remove_pointer_from_folder *)

Module PointerViews.
Import Pointers.

Section PointerViews.

Variable related : key -> key -> bool.

(** The view [add_pointer], which takes the two keys from the request; an
    absent or empty key is falsy.  A [to_node] that does not load has no
    [add_pointer] to call. *)
Definition add_pointer_view (to_node_id pointer_to_move : option key)
  : M World unit :=
  match to_node_id, pointer_to_move with
  | Some to_node_id, Some pointer_to_move =>
      if String.eqb to_node_id "" || String.eqb pointer_to_move ""
      then raise (HTTPError BAD_REQUEST [])
      else
        fun w =>
          let pointer := Node_load w pointer_to_move in
          match Node_load w to_node_id with
          | Some to_node =>
              try_except (_add_pointers related to_node [pointer])
                         value_error_is_bad_request w
          | None => (Raise AttributeError, w)
          end
  | _, _ => raise (HTTPError BAD_REQUEST [])
  end.

(** The body of the view [remove_pointer_from_folder]; [pointer_id] is the
    key of the node pointed to. *)
Definition remove_pointer_from_folder (node : key) (pointer_id : option key)
  : M World unit :=
  match pointer_id with
  | None => raise (HTTPError BAD_REQUEST [])
  | Some pointer_id =>
      fun w =>
        let pointer_id := pointing_at (object w node) pointer_id in
        match Pointer_load w pointer_id with
        | None => (Raise (HTTPError BAD_REQUEST []), w)
        | Some pointer =>
            (do_ try_except (rm_pointer node pointer) value_error_is_bad_request;
             save node) w
        end
  end.

End PointerViews.

(** The two worlds agree on every node object and record but those of the
    keys [ks]. *)
Definition same_outside (ks : list key) (w w' : World) : Prop :=
  forall k, ~ In k ks -> mem w' !! k = mem w !! k /\ db w' !! k = db w !! k.

End PointerViews.

(** ** Further definitions for the pointer views *)

Module PointerOrder.
Import Pointers.

(** Every node object of [w] is still there in [w']. *)
Definition keeps_objects (w w' : World) : Prop :=
  forall k, is_Some (mem w !! k) -> is_Some (mem w' !! k).

End PointerOrder.

(** ** project_private_link_edit and remove_private_link *)

Module PrivateLinks.

(** The attributes of a view-only link that the views write. *)
Record PrivateLink := mkPrivateLink {
  name : string;
  is_deleted : bool
}.

(** The stored links; both views save a link right after they change it. *)
Record World := mkWorld {
  links : gmap key PrivateLink
}.

(** [PrivateLink.load(key)]; a key that is no string loads nothing. *)
Definition PrivateLink_load (w : World) (k : json) : option (key * PrivateLink) :=
  match k with
  | JStr k => match links w !! k with
              | Some l => Some (k, l)
              | None => None
              end
  | _ => None
  end.

Definition store (k : key) (l : PrivateLink) (w : World) : World :=
  mkWorld (<[k := l]> (links w)).

Section PrivateLinks.

(** [validate_title(name)]: [None] when it passes, else the message of the
    [ValidationValueError] it raises. *)
Variable validate_title : json -> option string.

(** [strip_html(name)] *)
Variable strip_html : json -> string.

(** The body of the view; it returns the new name. *)
Definition project_private_link_edit (request_json : list (string * json))
  : M World string :=
  fun w =>
    let name := default (JStr "") (assoc "value" request_json) in
    match validate_title name with
    | Some e_message =>
        let message :=
          if String.eqb e_message "Invalid title." then "Invalid link name."
          else e_message in
        (Raise (HTTPError BAD_REQUEST [("message_long", message)]), w)
    | None =>
        let private_link_id := default (JStr "") (assoc "pk" request_json) in
        match PrivateLink_load w private_link_id with
        | Some (k, private_link) =>
            let new_name := strip_html name in
            (Return new_name, store k (mkPrivateLink new_name (is_deleted private_link)) w)
        | None =>
            (Raise (HTTPError BAD_REQUEST
                      [("message_long", "View-only link not found.")]), w)
        end
    end.

End PrivateLinks.

(** The body of the view [remove_private_link]: [request.json[...]] raises
    for a missing key, and a link that did not load has no attribute to
    set; neither is a [ModularOdmException]. *)
Definition remove_private_link (request_json : list (string * json)) : M World unit :=
  fun w =>
    match assoc "private_link_id" request_json with
    | None => (Raise KeyError, w)
    | Some link_id =>
        match PrivateLink_load w link_id with
        | Some (k, link) => (Return tt, store k (mkPrivateLink (name link) true) w)
        | None => (Raise AttributeError, w)
        end
    end.

(** Sample links. *)
Definition sample_world : World :=
  mkWorld (<["k1" := mkPrivateLink "first" false]>
             (<["k2" := mkPrivateLink "second" false]> ∅)).
Definition sample_validate (v : json) : option string :=
  match v with
  | JStr "" => Some "Invalid title."
  | JStr _ => None
  | _ => Some "Invalid title."
  end.
Definition sample_strip (v : json) : string :=
  match v with
  | JStr s => s
  | _ => ""
  end.

End PrivateLinks.

(** ** get_children, serialize_pointer and get_pointed *)

Module Listing.

Section Children.

(** The members of [node.nodes]. *)
Context {Obj : Type}.
Variable is_deleted : Obj -> bool.

(** [each.get_permissions(user)] *)
Variable get_permissions : Obj -> User -> list string.

(** [s.lower()] *)
Variable lower : string -> string.

(** The list that [get_children] hands to [_render_nodes];
    [permissions] is [request.args.get('permissions')]. *)
Definition get_children_nodes (nodes : list Obj) (user : User)
    (permissions : option string) : list Obj :=
  match permissions with
  | Some p =>
      if negb (String.eqb p "") then
        let perm := strip (lower p) in
        List.filter (fun each =>
                       existsb (String.eqb perm) (get_permissions each user)
                       && negb (is_deleted each))
                    nodes
      else List.filter (fun each => negb (is_deleted each)) nodes
  | None => List.filter (fun each => negb (is_deleted each)) nodes
  end.

End Children.

(** A visible contributor, with the names that [abbrev_authors] reads. *)
Record Author := mkAuthor {
  family_name : string;
  given_name : string;
  fullname : string
}.

(** The attributes of a node that [serialize_pointer] reads. *)
Record Node := mkNode {
  _id : key;
  url : string;
  title : string;
  is_collection : bool;
  visible_contributors : list Author;
  visible_contributor_ids : list key
}.

(** The dictionary of a pointing node: with its key when the actor can view
    it, without a key and with no url otherwise. *)
Record Pointed := mkPointed {
  p_id : option key;
  p_url : option string;
  p_title : string;
  p_authorShort : string
}.

Definition abbrev_authors (node : Node) : result string :=
  match visible_contributors node with
  | [] => Raise IndexError
  | lead_author :: _ =>
      let ret :=
        Search.str_or (family_name lead_author)
          (Search.str_or (given_name lead_author) (fullname lead_author)) in
      Return (if (1 <? length (visible_contributor_ids node))%nat
              then (ret ++ " et al.")%string else ret)
  end.

Section Pointed.

(** The actor of the request and [node.can_view(auth)]. *)
Context {Auth : Type}.
Variable can_view : Node -> Auth -> bool.

(** [serialize_pointer], on the node that [get_pointer_parent] gives for
    the pointer. *)
Definition serialize_pointer (node : Node) (auth : Auth) : result Pointed :=
  if can_view node auth then
    let* authors := abbrev_authors node in
    Return (mkPointed (Some (_id node)) (Some (url node)) (title node) authors)
  else
    Return (mkPointed None None "Private Component" "Private Author(s)").

(** [get_pointed], on the nodes that [get_pointer_parent] gives for the
    pointers of [node.pointed]. *)
Definition get_pointed (auth : Auth) (pointed : list Node) : result (list Pointed) :=
  for_each (fun each => serialize_pointer each auth)
           (List.filter (fun each => negb (is_collection each)) pointed).

End Pointed.

(** What an entry may tell about a pointing node. *)
Definition tells {Auth : Type} (can_view : Node -> Auth -> bool) (auth : Auth)
    (node : Node) (e : Pointed) : Prop :=
  if can_view node auth
  then p_id e = Some (_id node) /\ p_url e = Some (url node) /\ p_title e = title node
  else e = mkPointed None None "Private Component" "Private Author(s)".

(** Sample nodes pointing at a node: a public one, a private one and a
    collection. *)
Definition pub : Node :=
  mkNode "pub" "/pub/" "Public" false [mkAuthor "Lee" "Ann" "Ann Lee"] ["ann"].
Definition priv : Node :=
  mkNode "priv" "/priv/" "Secret" false [mkAuthor "Ray" "Bob" "Bob Ray"] ["bob"].
Definition folder : Node := mkNode "f" "/f/" "Folder" true [] [].
Definition sample_can_view (n : Node) (auth : User) : bool := String.eqb (_id n) "pub".

End Listing.

(** ** The pointer views under their decorators *)

Module PointerGuards.
Import Pointers PointerViews.

(** Modelled from the spec: the decorator [must_have_permission] of
    [website.project.decorators], which is not part of this file, on a view
    of the stored nodes.  It is the guard [require], run on the node of the
    route before the view. *)
Definition must_have_permission {W A} (l : Permission) (auth : Permissions.Auth)
    (node : Permissions.Node) (view : M W A) : M W A :=
  match Permissions.require auth node l with
  | Return _ => view
  | Raise e => raise e
  end.

Section PointerGuards.

Variable related : key -> key -> bool.

(** [must_not_be_registration] of [website.project.decorators]: it lets the
    call through or ends it before the view runs. *)
Variable must_not_be_registration : Permissions.Node -> option exn.

(** The view [add_pointers] under its decorators, outermost first; [node]
    is the node of the route.  It returns [{}]. *)
Definition add_pointers_route (auth : Permissions.Auth) (node : Permissions.Node)
    (node_ids : option (list key)) : M World json :=
  must_have_permission WRITE auth node
    (Permissions.guarded (must_not_be_registration node)
       (do_ add_pointers related (Permissions._id node) node_ids;
        ret (JObj []))).

(** The view [add_pointer] under [collect_auth], which hands the actor to
    the view and refuses nobody.  The view ends without a [return], which
    gives [None]. *)
Definition add_pointer_route (auth : Permissions.Auth)
    (to_node_id pointer_to_move : option key) : M World json :=
  do_ add_pointer_view related to_node_id pointer_to_move;
  ret JNull.

(** The view [move_pointers] under [collect_auth]; of its result
    [{}, 200, None] the dictionary is kept. *)
Definition move_pointers_route (auth : Permissions.Auth)
    (from_node_id to_node_id : option key) (pointers_to_move : option (list key))
  : M World json :=
  do_ move_pointers related from_node_id to_node_id pointers_to_move;
  ret (JObj []).

End PointerGuards.

(** Sample actors and nodes: [ann] is the admin of the private nodes [a]
    and [c] of the sample world; [eve] is logged in and has no permission on
    either. *)
Definition ann : Permissions.Auth := Permissions.mkAuth (Some "ann").
Definition eve : Permissions.Auth := Permissions.mkAuth (Some "eve").
Definition node_a : Permissions.Node :=
  Permissions.mkNode "a" "/a/" false false false [("ann", ADMIN)] None.
Definition node_c : Permissions.Node :=
  Permissions.mkNode "c" "/c/" false false false [("ann", ADMIN)] None.
Definition no_registration (n : Permissions.Node) : option exn := None.

End PointerGuards.

(** ** Theorems *)

Module CommentsFacts.
Import Comments.

Lemma public_or_private_spec (v : json) (s : string) :
  public_or_private v = Some s <->
  v = JStr s /\ (s = "public" \/ s = "private").
Proof.
  destruct v as [| | |s'| |]; simpl; try (split; [discriminate | intros [? _]; discriminate]).
  destruct (String.eqb s' "public") eqn:E1; simpl.
  - apply String.eqb_eq in E1. subst. split.
    + intros [= <-]. auto.
    + intros [[= <-] _]. reflexivity.
  - destruct (String.eqb s' "private") eqn:E2.
    + apply String.eqb_eq in E2. subst. split.
      * intros [= <-]. auto.
      * intros [[= <-] _]. reflexivity.
    + split; [discriminate |].
      intros [[= <-] [-> | ->]]; simpl in *; discriminate.
Qed.

(** C9. A falsy [commentLevel] resets the comment level of the node to
    none and saves it; ['public'] and ['private'] are stored as given; any
    other truthy value raises a bad request and leaves the node and its
    stored record as they were. *)
Theorem configure_comments_levels (request_json : list (string * json)) (w : World) :
  let v := json_get request_json "commentLevel" in
  let out := configure_comments request_json w in
  (truthy v = false ->
     out.1 = Return tt /\
     comment_level (node out.2) = None /\
     comment_level (stored out.2) = None) /\
  (forall s, v = JStr s -> s = "public" \/ s = "private" ->
     out.1 = Return tt /\
     comment_level (node out.2) = Some s /\
     comment_level (stored out.2) = Some s) /\
  (truthy v = true -> v <> JStr "public" -> v <> JStr "private" ->
     out.1 = Raise (HTTPError BAD_REQUEST []) /\
     out.2 = w).
Proof.
  intros v out. subst out. unfold configure_comments. fold v.
  split; [| split].
  - intros F. rewrite F. auto.
  - intros s Hv Hs.
    assert (T : truthy v = true) by (rewrite Hv; destruct Hs; subst; reflexivity).
    rewrite T; simpl.
    rewrite (proj2 (public_or_private_spec v s) (conj Hv Hs)). auto.
  - intros T Hpub Hpriv. rewrite T; simpl.
    destruct (public_or_private v) as [s|] eqn:E; [| auto].
    apply public_or_private_spec in E as [-> [-> | ->]]; congruence.
Qed.

Lemma configure_comments_levels_witness :
  let reset := configure_comments [] sample_world in
  let private := configure_comments [("commentLevel", JStr "private")] sample_world in
  let other := configure_comments [("commentLevel", JStr "all")] sample_world in
  (reset.1 = Return tt /\ comment_level (stored reset.2) = None) /\
  (private.1 = Return tt /\ comment_level (stored private.2) = Some "private") /\
  (other.1 = Raise (HTTPError BAD_REQUEST []) /\ other.2 = sample_world).
Proof.
  split; [| split].
  - destruct (configure_comments_levels [] sample_world) as [H _].
    destruct (H eq_refl) as (? & _ & ?). auto.
  - destruct (configure_comments_levels [("commentLevel", JStr "private")] sample_world)
      as (_ & H & _).
    destruct (H "private" eq_refl (or_intror eq_refl)) as (? & _ & ?). auto.
  - destruct (configure_comments_levels [("commentLevel", JStr "all")] sample_world)
      as (_ & _ & H).
    apply H; [reflexivity | discriminate | discriminate].
Defined.

End CommentsFacts.

Module ReorderFacts.
Import Reorder.

Section ReorderFacts.
Context {Obj : Type} `{Countable Obj}.
Variable is_deleted : Obj -> bool.
Variable load : string -> key -> result (option Obj).


Lemma same_set_incl (valid : list Obj) (new : list (option Obj)) :
  same_set valid new = true ->
  incl (Some <$> valid) new /\ incl new (Some <$> valid).
Proof.
  unfold same_set. intros E%bool_decide_eq_true.
  split; intros x Hx; apply list_elem_of_In; apply list_elem_of_In in Hx.
  - apply (elem_of_list_to_set (C := gset (option Obj))). rewrite <- E.
    by apply elem_of_list_to_set.
  - apply (elem_of_list_to_set (C := gset (option Obj))). rewrite E.
    by apply elem_of_list_to_set.
Qed.

Lemma same_set_Permutation (valid : list Obj) (new : list (option Obj)) :
  Some <$> valid ≡ₚ new -> same_set valid new = true.
Proof.
  intros P. unfold same_set. apply bool_decide_eq_true.
  apply set_eq. intros x. rewrite !elem_of_list_to_set. by rewrite P.
Qed.



Lemma filter_active_app (objs : list Obj) (w : World) :
  Forall (fun n => is_deleted n = false) objs ->
  List.filter (fun n => negb (is_deleted n)) (objs ++ deleted_nodes is_deleted w) = objs.
Proof.
  intros F. rewrite List.filter_app.
  assert (E1 : List.filter (fun n => negb (is_deleted n)) objs = objs).
  { induction F as [|x l Hx _ IH]; simpl; [reflexivity |]. by rewrite Hx, IH. }
  assert (E2 : List.filter (fun n => negb (is_deleted n)) (deleted_nodes is_deleted w) = []).
  { unfold deleted_nodes. induction (nodes w) as [|x l IH]; simpl; [reflexivity |].
    destruct (is_deleted x) eqn:D; simpl; [by rewrite D |]. exact IH. }
  rewrite E1, E2. apply app_nil_r.
Qed.



End ReorderFacts.


End ReorderFacts.

Module ChildrenFacts.
Import Children.

(** Induction on a node with the hypothesis for each member of
    [node.nodes]. *)
Lemma Node_rect_nodes (P : Node -> Prop) :
  (forall p k t pub del par l, Forall P l -> P (mkNode p k t pub del par l)) ->
  forall n, P n.
Proof.
  intros step. fix IH 1. intros [p k t pub del par l].
  apply step. induction l as [|c l IHl]; constructor; [apply IH | exact IHl].
Qed.

Section ChildrenFacts.
Variable has_permission : Node -> User -> Permission -> bool.
Variable user : User.

Local Abbreviation _get_children := (_get_children has_permission user).
Local Abbreviation editable := (editable has_permission user).
Local Abbreviation editable_path := (editable_path has_permission user).

(** The loop of the source: over [nodes_primary], testing [editable]. *)
Lemma _get_children_eq (node : Node) (indent : nat) :
  _get_children node indent =
  flat_map (fun child =>
              if editable child
              then entry_of child indent :: _get_children child (S indent)
              else [])
           (nodes_primary node).
Proof.
  destruct node as [p k t pub del par l]. unfold nodes_primary; simpl.
  induction l as [|c l IH]; simpl; [reflexivity |].
  destruct (primary c); simpl; [by rewrite IH | exact IH].
Qed.

Lemma editable_path_sound (n c : Node) (d : nat) :
  editable_path n d c ->
  descendant n c /\ primary c = true /\ is_deleted c = false
  /\ has_permission c user ADMIN = true.
Proof.
  induction 1 as [n c Hin He | n m d c Hin He _ IH].
  - apply filter_In in Hin as [Hin Hp].
    apply andb_true_iff in He as [Hd Ha]. apply negb_true_iff in Hd.
    split; [by apply desc_child | auto].
  - destruct IH as (Hd & IH). apply filter_In in Hin as [Hin _].
    split; [by apply desc_below with m | exact IH].
Qed.

Lemma _get_children_paths (node : Node) :
  forall indent e,
    In e (_get_children node indent) <->
    exists d c, editable_path node d c /\ e = entry_of c (indent + d).
Proof.
  induction node as [p k t pub del par l IH] using Node_rect_nodes.
  intros indent e. rewrite _get_children_eq, in_flat_map. split.
  - intros (child & Hin & He).
    destruct (editable child) eqn:Ed; [| destruct He].
    assert (Hl : In child l) by (apply filter_In in Hin; tauto).
    destruct He as [<- | He].
    + exists 0, child. rewrite Nat.add_0_r. split; [by apply path_child | reflexivity].
    + rewrite Forall_forall in IH. apply (IH child) in He; [| by apply list_elem_of_In].
      destruct He as (d & c & Hp & ->).
      exists (S d), c. split; [by apply path_below with child |].
      f_equal. lia.
  - intros (d & c & Hp & ->). inversion Hp as [? ? Hin Ed | ? m d' ? Hin Ed Hp']; subst.
    + exists c. split; [exact Hin |]. rewrite Ed, Nat.add_0_r. by left.
    + exists m. split; [exact Hin |]. rewrite Ed. right.
      assert (Hl : In m l) by (apply filter_In in Hin; tauto).
      rewrite Forall_forall in IH. apply (IH m); [by apply list_elem_of_In |].
      exists d', c. split; [exact Hp' |]. f_equal. lia.
Qed.

Lemma _get_children_blocked (node : Node) (l1 l2 : list Node) (c : Node) (indent : nat) :
  nodes node = l1 ++ c :: l2 ->
  primary c && editable c = false ->
  _get_children node indent = _get_children (with_nodes node (l1 ++ l2)) indent.
Proof.
  destruct node as [p k t pub del par l]; simpl. intros -> B.
  rewrite !flat_map_app; simpl. by rewrite B.
Qed.

(** C10. Every entry of the list returned by [get_editable_children]
    describes a primary, non-deleted descendant of the node on which the
    user has admin permission; an entry appears exactly when every node on
    the way down to it is such a child; and a child that is deleted or not
    administered by the user contributes nothing, whatever lies below it. *)
Theorem get_editable_children_entries (node : Node) :
  (forall e, In e (children (get_editable_children has_permission user node)) ->
     exists c, e = entry_of c (entry_indent e)
               /\ descendant node c
               /\ is_deleted c = false
               /\ has_permission c user ADMIN = true) /\
  (forall e, In e (children (get_editable_children has_permission user node)) <->
     exists d c, editable_path node d c /\ e = entry_of c d) /\
  (forall l1 c l2,
     nodes node = l1 ++ c :: l2 ->
     is_deleted c = true \/ has_permission c user ADMIN = false ->
     children (get_editable_children has_permission user node)
     = children (get_editable_children has_permission user (with_nodes node (l1 ++ l2)))).
Proof.
  unfold get_editable_children; simpl. split; [| split].
  - intros e He. apply _get_children_paths in He as (d & c & Hp & ->).
    apply editable_path_sound in Hp as (Hd & _ & Hdel & Hadm).
    exists c. simpl. auto.
  - intros e. apply (_get_children_paths node 0 e).
  - intros l1 c l2 E B. apply _get_children_blocked with c; [exact E |].
    unfold Children.editable.
    destruct B as [-> | ->]; simpl; [apply andb_false_r |].
    by rewrite !andb_false_r.
Qed.

End ChildrenFacts.

Lemma get_editable_children_entries_witness :
  children (get_editable_children sample_has_permission "u" root)
  = [entry_of a 0; entry_of a1 1]
  /\ children (get_editable_children sample_has_permission "u" root)
     = children (get_editable_children sample_has_permission "u"
                   (with_nodes root [a; ptr])).
Proof.
  split; [reflexivity |].
  apply (proj2 (proj2 (get_editable_children_entries sample_has_permission "u" root))
           [a] b [ptr]); [reflexivity | left; reflexivity].
Defined.

End ChildrenFacts.

Module RemoveFacts.
Import Remove.

Section RemoveFacts.
Context {Auth : Type}.
Variable can_view : Node -> Auth -> bool.
Variable remove_node : Node -> Auth -> result Node.

(** C7 (amended). When the removal succeeds the view returns the url of the
    parent of the node if the node has a parent that the actor can view,
    and the dashboard otherwise; it looks no further up than the parent.
    The result is the nearest viewable ancestor whenever the parent is
    viewable, and the dashboard whenever no ancestor is viewable. *)
Theorem component_remove_redirects_to_parent
    (auth : Auth) (node node' : Node) (w : World) :
  remove_node node auth = Return node' ->
  let out := (component_remove can_view remove_node auth node w).1 in
  (forall p, parent node' = Some p -> can_view p auth = true ->
     out = Return (url p)
     /\ nearest_viewable_ancestor can_view auth node' = Some p) /\
  (forall p, parent node' = Some p -> can_view p auth = false ->
     out = Return "/dashboard/") /\
  (parent node' = None -> out = Return "/dashboard/") /\
  (nearest_viewable_ancestor can_view auth node' = None ->
     out = Return "/dashboard/").
Proof.
  intros R out. subst out. unfold component_remove. rewrite R; simpl.
  unfold parent_node, node__parent.
  destruct node' as [k u d [q|]]; simpl.
  - split; [| split; [| split]].
    + intros ? [= <-] V. by rewrite V.
    + intros ? [= <-] V. by rewrite V.
    + discriminate.
    + destruct (can_view q auth); [discriminate | reflexivity].
  - split; [| split; [| split]]; try reflexivity; intros; discriminate.
Qed.

End RemoveFacts.

(** C7, counterexample. The actor removes [n]; its parent [p] is not
    viewable but its grandparent [g] is: the nearest viewable ancestor is
    [g], and the view returns the dashboard. *)
Lemma component_remove_skips_grandparent :
  exists node',
    sample_remove_node n "u" = Return node' /\
    nearest_viewable_ancestor sample_can_view "u" node' = Some g /\
    (component_remove sample_can_view sample_remove_node "u" n sample_world).1
      = Return "/dashboard/" /\
    redirect_of (nearest_viewable_ancestor sample_can_view "u" node') = "/g/" /\
    Return "/dashboard/"
      <> Return (redirect_of (nearest_viewable_ancestor sample_can_view "u" node')).
Proof.
  eexists. split; [reflexivity |]. repeat split; try reflexivity.
  vm_compute. discriminate.
Qed.

Lemma component_remove_redirects_to_parent_witness :
  (component_remove sample_can_view sample_remove_node "u" c sample_world).1
    = Return "/g/".
Proof.
  destruct (component_remove_redirects_to_parent sample_can_view
              sample_remove_node "u" c (mkNode "c" "/c/" true (Some g))
              sample_world eq_refl) as (H & _).
  apply (H g); reflexivity.
Defined.

End RemoveFacts.

Module PointersFacts.
Import Pointers.

Lemma object_insert_eq (m d : gmap key Node) (f : nat) (k : key) (n : Node) :
  object (mkWorld (<[k := n]> m) d f) k = n.
Proof. unfold object; simpl. by rewrite lookup_insert_eq. Qed.

Lemma object_insert_ne (m d : gmap key Node) (f : nat) (k k' : key) (n : Node) :
  k <> k' -> object (mkWorld (<[k := n]> m) d f) k' = object (mkWorld m d f) k'.
Proof. intros Hne. unfold object; simpl. by rewrite lookup_insert_ne. Qed.

Lemma record_insert_eq (m d : gmap key Node) (f : nat) (k : key) (n : Node) :
  record (mkWorld m (<[k := n]> d) f) k = n.
Proof. unfold record; simpl. by rewrite lookup_insert_eq. Qed.

Lemma active_pointers_app (ps qs : list Pointer) (t : key) :
  active_pointers (mkNode (ps ++ qs)) t
  = active_pointers (mkNode ps) t ++ active_pointers (mkNode qs) t.
Proof. unfold active_pointers; simpl. apply List.filter_app. Qed.

Lemma active_pointers_new (f : nat) (t t' : key) :
  active_pointers (mkNode [mkPointer f t false]) t'
  = if String.eqb t t' then [mkPointer f t false] else [].
Proof. unfold active_pointers, points_to; simpl. reflexivity. Qed.

Section PointersFacts.
Variable related : key -> key -> bool.

Local Abbreviation add_pointer := (add_pointer related).
Local Abbreviation _add_pointers_loop := (_add_pointers_loop related).
Local Abbreviation _add_pointers := (_add_pointers related).
Local Abbreviation accepted := (accepted related).
Local Abbreviation rejected := (rejected related).

Lemma add_pointer_unsaved (host t : key) (w : World) :
  add_pointer host (Some t) false w
  = if accepted w host t then (Return tt, added w host t) else (Raise ValueError, w).
Proof.
  unfold Pointers.add_pointer, Pointers.accepted, added.
  destruct (String.eqb t host); simpl; [reflexivity |].
  destruct (active_pointers (object w host) t); simpl; [| reflexivity].
  destruct (related host t); reflexivity.
Qed.

Lemma accepted_false_iff (w : World) (host t : key) :
  accepted w host t = false <-> rejected w host t.
Proof.
  unfold Pointers.accepted, Pointers.rejected.
  destruct (String.eqb_spec t host) as [-> | Hne]; simpl; [tauto |].
  destruct (active_pointers (object w host) t) as [|q l]; simpl.
  - destruct (related host t); simpl; [tauto |].
    split; [discriminate | intros [? | [? | ?]]; congruence].
  - split; [intros _; right; left; discriminate | reflexivity].
Qed.

Lemma accepted_added (w : World) (host t1 t : key) :
  accepted (added w host t1) host t
  = accepted w host t && negb (String.eqb t1 t).
Proof.
  unfold Pointers.accepted, added. rewrite object_insert_eq.
  rewrite active_pointers_app, active_pointers_new.
  destruct (negb (String.eqb t host)); simpl; [| reflexivity].
  replace (active_pointers (mkNode (pointers (object w host))) t)
    with (active_pointers (object w host) t) by (by destruct (object w host)).
  destruct (active_pointers (object w host) t) as [|q l]; simpl; [| reflexivity].
  destruct (String.eqb t1 t); simpl; [by rewrite andb_false_r | by rewrite andb_true_r].
Qed.

Lemma _add_pointers_loop_cons (host : key) (t : option key) (ts : list (option key))
    (flag : bool) (w : World) :
  _add_pointers_loop host (t :: ts) flag w
  = match add_pointer host t false w with
    | (Return _, w') => _add_pointers_loop host ts true w'
    | (Raise e, w') => (Raise e, w')
    end.
Proof. reflexivity. Qed.

(** A pass of the loop of [_add_pointers] never writes a record. *)
Lemma _add_pointers_loop_db (host : key) (targets : list (option key)) :
  forall flag w, db (_add_pointers_loop host targets flag w).2 = db w.
Proof.
  induction targets as [|[t|] ts IH]; intros flag w; [reflexivity | | reflexivity].
  rewrite _add_pointers_loop_cons, add_pointer_unsaved.
  destruct (accepted w host t); [| reflexivity].
  by rewrite IH.
Qed.

Lemma _add_pointers_loop_accepts (host : key) (targets : list key) :
  forall flag w,
    NoDup targets ->
    Forall (fun t => accepted w host t = true) targets ->
    exists w',
      _add_pointers_loop host (Some <$> targets) flag w
      = (Return (flag || if targets is [] then false else true), w')
      /\ db w' = db w
      /\ pointers (object w' host)
         = pointers (object w host) ++ new_pointers (fresh w) targets.
Proof.
  induction targets as [|t ts IH]; intros flag w ND A.
  - exists w. simpl. rewrite orb_false_r, app_nil_r. auto.
  - apply NoDup_cons in ND as [Hnotin ND]. apply Forall_cons in A as [At A].
    rewrite fmap_cons, _add_pointers_loop_cons, add_pointer_unsaved, At.
    destruct (IH true (added w host t) ND) as (w' & E & Hdb & Hp).
    { apply Forall_forall. intros x Hx. rewrite accepted_added.
      rewrite Forall_forall in A. rewrite (A x Hx); simpl.
      apply negb_true_iff, String.eqb_neq. intros ->. contradiction. }
    exists w'. rewrite E. rewrite orb_true_r. split; [reflexivity |].
    split; [exact Hdb |]. rewrite Hp. unfold added at 1 2. rewrite object_insert_eq; simpl.
    by rewrite <- app_assoc.
Qed.

Lemma _add_pointers_loop_rejects (host : key) (targets : list key) :
  forall flag w,
    ~ (NoDup targets /\ Forall (fun t => accepted w host t = true) targets) ->
    exists w',
      _add_pointers_loop host (Some <$> targets) flag w = (Raise ValueError, w')
      /\ db w' = db w.
Proof.
  induction targets as [|t ts IH]; intros flag w N.
  - destruct N. split; constructor.
  - rewrite fmap_cons, _add_pointers_loop_cons, add_pointer_unsaved.
    destruct (accepted w host t) eqn:At; [| by exists w].
    destruct (IH true (added w host t)) as (w' & E & Hdb).
    + intros [ND A]. apply N. rewrite Forall_forall in A. split.
      * apply NoDup_cons. split; [| exact ND].
        intros Hin. specialize (A t Hin). rewrite accepted_added in A.
        rewrite String.eqb_refl, andb_false_r in A. discriminate.
      * apply Forall_cons. split; [exact At |].
        apply Forall_forall. intros x Hx. specialize (A x Hx).
        rewrite accepted_added in A. by apply andb_true_iff in A as [A _].
    + exists w'. by rewrite E.
Qed.

Lemma Node_eta (n : Node) : mkNode (pointers n) = n.
Proof. by destruct n. Qed.

Lemma _add_pointers_accepts (host : key) (targets : list key) (w : World) :
  targets <> [] ->
  NoDup targets ->
  Forall (fun t => accepted w host t = true) targets ->
  exists w',
    _add_pointers host (Some <$> targets) w = (Return tt, w')
    /\ db w' = <[host := mkNode (pointers (object w host)
                                  ++ new_pointers (fresh w) targets)]> (db w).
Proof.
  intros NE ND A.
  destruct (_add_pointers_loop_accepts host targets false w ND A) as (w1 & E & Hdb & Hp).
  unfold Pointers._add_pointers, seq. rewrite E.
  assert (F : (false || if targets is [] then false else true) = true)
    by (destruct targets; [contradiction | reflexivity]).
  rewrite F. unfold save. eexists. split; [reflexivity |]. cbn [db].
  by rewrite Hdb, <- Hp, Node_eta.
Qed.

Lemma _add_pointers_rejects (host : key) (targets : list key) (w : World) :
  ~ (NoDup targets /\ Forall (fun t => accepted w host t = true) targets) ->
  exists w',
    _add_pointers host (Some <$> targets) w = (Raise ValueError, w')
    /\ db w' = db w.
Proof.
  intros N.
  destruct (_add_pointers_loop_rejects host targets false w N) as (w1 & E & Hdb).
  unfold Pointers._add_pointers, seq. rewrite E. by exists w1.
Qed.

(** Unless [_add_pointers] returns, no record is written. *)
Lemma _add_pointers_raise_db (host : key) (targets : list (option key)) (w : World) :
  (_add_pointers host targets w).1 <> Return tt ->
  db (_add_pointers host targets w).2 = db w.
Proof.
  unfold Pointers._add_pointers, seq.
  pose proof (_add_pointers_loop_db host targets false w) as Hdb.
  destruct (_add_pointers_loop host targets false w) as [[[|]|e] w1]; simpl in *.
  - intros N. by destruct N.
  - intros N. by destruct N.
  - intros _. exact Hdb.
Qed.

Lemma try_except_bad_request_db {A} (c : M World A) (w : World) :
  db (try_except c value_error_is_bad_request w).2 = db (c w).2.
Proof.
  unfold try_except. destruct (c w) as [[a|e] w1]; [reflexivity |].
  by destruct e.
Qed.

Lemma try_except_bad_request_return {A} (c : M World A) (w : World) (a : A) :
  (try_except c value_error_is_bad_request w).1 = Return a <-> (c w).1 = Return a.
Proof.
  unfold try_except. destruct (c w) as [[a'|e] w1]; [reflexivity |].
  destruct e; simpl; split; discriminate.
Qed.

Lemma Node_load_loaded (w : World) (ids : list key) :
  Forall (fun k => is_Some (mem w !! k)) ids ->
  map (Node_load w) ids = Some <$> ids.
Proof.
  induction 1 as [|k l [n Hk] _ IH]; [reflexivity |].
  simpl. unfold Node_load at 1. rewrite Hk. by rewrite IH.
Qed.

Lemma not_accepted_all (w : World) (host : key) (targets : list key) :
  ~ NoDup targets \/ Exists (rejected w host) targets ->
  ~ (NoDup targets /\ Forall (fun t => accepted w host t = true) targets).
Proof.
  intros [N | E] [ND A]; [contradiction |].
  apply Exists_exists in E as (t & Hin & R).
  rewrite Forall_forall in A. specialize (A t Hin).
  apply accepted_false_iff in R. congruence.
Qed.

(** C3. Unless the view returns, no record is written.  For a batch of
    loaded targets: if the targets are pairwise distinct and none is
    rejected, the view returns and the record of the host holds the
    pointers it had followed by one new pointer for each target, in order,
    no other record being written; if some target is rejected (it is the
    host, it is already pointed to, also by an earlier target of the batch,
    or it is related to the host in the tree), the view raises a bad
    request and no record is written. *)
Theorem add_pointers_all_or_nothing (host : key) (node_ids : list key) (w : World) :
  let out := add_pointers related host (Some node_ids) w in
  (out.1 <> Return tt -> db out.2 = db w) /\
  (node_ids <> [] ->
   Forall (fun k => is_Some (mem w !! k)) node_ids ->
   (NoDup node_ids /\ Forall (fun t => ~ rejected w host t) node_ids ->
      out.1 = Return tt
      /\ pointers (record out.2 host)
         = pointers (object w host) ++ new_pointers (fresh w) node_ids
      /\ forall k, k <> host -> db out.2 !! k = db w !! k) /\
   (~ NoDup node_ids \/ Exists (rejected w host) node_ids ->
      out.1 = Raise (HTTPError BAD_REQUEST [])
      /\ db out.2 = db w)).
Proof.
  intros out. subst out. split.
  - destruct node_ids as [|t ts]; [reflexivity |].
    unfold Pointers.add_pointers. intros N.
    rewrite try_except_bad_request_db. apply _add_pointers_raise_db.
    intros R. apply N. by apply try_except_bad_request_return.
  - intros NE L. destruct node_ids as [|t ts]; [contradiction |].
    unfold Pointers.add_pointers. rewrite (Node_load_loaded _ _ L). split.
    + intros [ND A].
      destruct (_add_pointers_accepts host (t :: ts) w NE ND) as (w' & E & Hdb).
      { eapply Forall_impl; [exact A |]. intros x Hx; simpl in Hx.
        destruct (accepted w host x) eqn:Ex; [reflexivity |].
        apply accepted_false_iff in Ex. contradiction. }
      unfold try_except. rewrite E; simpl.
      split; [reflexivity |]. unfold record. rewrite Hdb. split.
      * by rewrite lookup_insert_eq.
      * intros k Hk. by rewrite lookup_insert_ne.
    + intros R. apply not_accepted_all in R.
      destruct (_add_pointers_rejects host (t :: ts) w R) as (w' & E & Hdb).
      unfold try_except. rewrite E; simpl. auto.
Qed.

Lemma owns_active (n : Node) (t : key) (p : Pointer) :
  In p (active_pointers n t) -> owns n (_id p) = true.
Proof.
  unfold active_pointers, owns, points_to. intros [Hin Hp]%filter_In.
  apply existsb_exists. exists p. split; [exact Hin |].
  apply andb_true_iff in Hp as [-> _]. by rewrite Nat.eqb_refl.
Qed.

Lemma active_pointers_tombstone (ps : list Pointer) (t : key) (p : Pointer) :
  active_pointers (mkNode ps) t = [p] ->
  active_pointers (mkNode (map (tombstone (_id p)) ps)) t = [].
Proof.
  unfold active_pointers; simpl. intros E.
  assert (Hp : points_to t p = true).
  { assert (Hin : In p (List.filter (points_to t) ps)) by (rewrite E; by left).
    by apply filter_In in Hin as [_ ?]. }
  assert (U : forall x, In x ps -> points_to t x = true -> x = p).
  { intros x Hx Hpx.
    assert (Hin : In x (List.filter (points_to t) ps)) by (by apply filter_In).
    rewrite E in Hin. destruct Hin as [-> | []]. reflexivity. }
  clear E. induction ps as [|x ps IH]; [reflexivity |]. simpl.
  rewrite IH by (intros y Hy; apply U; by right).
  destruct (points_to t (tombstone (_id p) x)) eqn:Ex; [| reflexivity].
  exfalso. unfold tombstone in Ex.
  destruct (negb (is_deleted x) && (_id x =? _id p)%nat) eqn:Ec.
  - unfold points_to in Ex. simpl in Ex. discriminate.
  - rewrite (U x (or_introl eq_refl) Ex) in Ec.
    unfold points_to in Hp. apply andb_true_iff in Hp as [Hd _].
    by rewrite Hd, Nat.eqb_refl in Ec.
Qed.

Lemma move_pointers_first_half (from_node to_node target : key) (p : Pointer) (w : World) :
  is_Some (mem w !! target) ->
  active_pointers (object w from_node) target = [p] ->
  move_pointers_loop related from_node to_node [target] w
  = match try_except (_add_pointers to_node [Some target]) value_error_is_bad_request
            (removed w from_node p) with
    | (Return _, w') => (Return tt, w')
    | (Raise e, w') => (Raise e, w')
    end.
Proof.
  intros [n Ht] E. simpl. unfold pointing_at, Pointer_load, Node_load.
  rewrite E, Ht. unfold seq at 1.
  assert (O : owns (object w from_node) (_id p) = true).
  { apply owns_active with target. rewrite E. by left. }
  unfold try_except at 1, rm_pointer. rewrite O.
  unfold seq at 1, save at 1. cbn [mem db fresh].
  rewrite object_insert_eq. fold (removed w from_node p).
  unfold seq at 1.
  destruct (try_except _ _ _) as [[[]|e] w']; reflexivity.
Qed.

Lemma object_removed_ne (w : World) (from_node to_node : key) (p : Pointer) :
  from_node <> to_node ->
  object (removed w from_node p) to_node = object w to_node.
Proof.
  intros Hne. unfold removed. by rewrite object_insert_ne by exact Hne.
Qed.

Lemma accepted_removed (w : World) (from_node to_node target : key) (p : Pointer) :
  from_node <> to_node ->
  accepted (removed w from_node p) to_node target = accepted w to_node target.
Proof.
  intros Hne. unfold Pointers.accepted. by rewrite object_removed_ne by exact Hne.
Qed.

(** C2 (amended). For two different loaded nodes and a loaded target to
    which [from_node] holds exactly one active pointer: when [to_node]
    accepts the target the view returns, the record of [from_node] has no
    active pointer to the target and the record of [to_node] has exactly
    one, the new one; when [to_node] rejects the target the view raises a
    bad request after the removal was saved: the record of [from_node] has
    no active pointer to the target and the record of [to_node] is as it
    was. *)
Theorem move_pointers_outcomes (from_node to_node target : key) (p : Pointer) (w : World) :
  from_node <> to_node ->
  is_Some (mem w !! from_node) ->
  is_Some (mem w !! to_node) ->
  is_Some (mem w !! target) ->
  active_pointers (object w from_node) target = [p] ->
  let out := move_pointers related (Some from_node) (Some to_node) (Some [target]) w in
  (~ rejected w to_node target ->
     out.1 = Return tt
     /\ active_pointers (record out.2 from_node) target = []
     /\ active_pointers (record out.2 to_node) target = [mkPointer (fresh w) target false]
     /\ length (active_pointers (record out.2 from_node) target
                ++ active_pointers (record out.2 to_node) target) = 1) /\
  (rejected w to_node target ->
     out.1 = Raise (HTTPError BAD_REQUEST [])
     /\ active_pointers (record out.2 from_node) target = []
     /\ db out.2 !! to_node = db w !! to_node).
Proof.
  intros Hne [nf Hf] [nt Hto] Ht E out. subst out.
  unfold move_pointers, Node_load. rewrite Hf, Hto.
  rewrite (move_pointers_first_half _ _ _ p w Ht E).
  assert (Hrm : active_pointers
                  (mkNode (map (tombstone (_id p)) (pointers (object w from_node))))
                  target = []).
  { apply active_pointers_tombstone. by rewrite Node_eta. }
  split.
  - intros A.
    destruct (_add_pointers_accepts to_node [target] (removed w from_node p))
      as (w' & Eadd & Hdb).
    + discriminate.
    + apply NoDup_singleton.
    + apply Forall_singleton. rewrite accepted_removed by exact Hne.
      destruct (accepted w to_node target) eqn:Ea; [reflexivity |].
      apply accepted_false_iff in Ea. contradiction.
    + simpl in Eadd. unfold try_except. rewrite Eadd; simpl.
      assert (Rf : active_pointers (record w' from_node) target = []).
      { unfold record. rewrite Hdb. rewrite lookup_insert_ne by congruence.
        unfold removed; simpl. by rewrite lookup_insert_eq. }
      assert (Rt : active_pointers (record w' to_node) target
                   = [mkPointer (fresh w) target false]).
      { unfold record. rewrite Hdb, lookup_insert_eq.
        rewrite (object_removed_ne _ _ _ _ Hne).
        change (fresh (removed w from_node p)) with (fresh w).
        cbn [new_pointers default from_option id].
        rewrite active_pointers_app, active_pointers_new, String.eqb_refl, Node_eta.
        destruct (active_pointers (object w to_node) target) as [|q l] eqn:Eq; [reflexivity |].
        exfalso. apply A. right; left. rewrite Eq. discriminate. }
      rewrite Rf, Rt. auto.
  - intros R.
    destruct (_add_pointers_rejects to_node [target] (removed w from_node p))
      as (w' & Eadd & Hdb).
    + intros [_ A]. apply Forall_inv in A. cbv beta in A.
      rewrite accepted_removed in A by exact Hne.
      apply accepted_false_iff in R. congruence.
    + simpl in Eadd. unfold try_except. rewrite Eadd; simpl.
      split; [reflexivity |]. unfold record. rewrite Hdb. unfold removed; simpl. split.
      * by rewrite lookup_insert_eq.
      * by rewrite lookup_insert_ne.
Qed.

End PointersFacts.

(** C2, counterexample.  The node [a] points to [b]; moving that pointer
    into [b] itself raises a bad request after the removal was saved, and
    the pointer is on neither node.  Moving it from [a] to [a] returns, and
    [a] still points to [b]. *)
Lemma move_pointers_not_atomic :
  let into_target := move_pointers unrelated (Some "a") (Some "b") (Some ["b"]) sample_world in
  let onto_itself := move_pointers unrelated (Some "a") (Some "a") (Some ["b"]) sample_world in
  active_pointers (record sample_world "a") "b" = [mkPointer 0 "b" false] /\
  (into_target.1 = Raise (HTTPError BAD_REQUEST []) /\
   active_pointers (record into_target.2 "a") "b" = [] /\
   active_pointers (record into_target.2 "b") "b" = []) /\
  (onto_itself.1 = Return tt /\
   active_pointers (record onto_itself.2 "a") "b" = [mkPointer 1 "b" false]).
Proof. vm_compute. auto. Qed.

Lemma move_pointers_outcomes_witness :
  let out := move_pointers unrelated (Some "a") (Some "c") (Some ["b"]) sample_world in
  out.1 = Return tt
  /\ active_pointers (record out.2 "a") "b" = []
  /\ active_pointers (record out.2 "c") "b" = [mkPointer 1 "b" false].
Proof.
  destruct (move_pointers_outcomes unrelated "a" "c" "b" (mkPointer 0 "b" false) sample_world)
    as [Hok _].
  - discriminate.
  - eexists; vm_compute; reflexivity.
  - eexists; vm_compute; reflexivity.
  - eexists; vm_compute; reflexivity.
  - vm_compute; reflexivity.
  - destruct Hok as (H1 & H2 & H3 & _).
    + intros [E | [E | E]]; vm_compute in E; [discriminate | by apply E | discriminate].
    + auto.
Defined.

Lemma add_pointers_all_or_nothing_witness :
  let out := add_pointers unrelated "c" (Some ["a"; "b"]) sample_world in
  out.1 = Return tt
  /\ pointers (record out.2 "c") = [mkPointer 1 "a" false; mkPointer 2 "b" false].
Proof.
  destruct (add_pointers_all_or_nothing unrelated "c" ["a"; "b"] sample_world)
    as [_ H].
  destruct H as [Hok _].
  - discriminate.
  - repeat constructor; eexists; vm_compute; reflexivity.
  - destruct Hok as (H1 & H2 & _); [| auto].
    split.
    + apply (bool_decide_unpack _). vm_compute. exact I.
    + repeat constructor;
        intros [E | [E | E]]; vm_compute in E; try discriminate; by apply E.
Defined.

End PointersFacts.

Module PrivacyFacts.
Import Permissions Privacy.

Section PrivacyFacts.
Variable must_be_valid_project : Node -> option exn.
Variable state_error_message : Node -> string.

Lemma require_below (auth : Auth) (n : Node) (l : Permission) :
  (level (effective_permission auth n) < level (Some l))%nat ->
  require auth n l = Raise PermissionsError.
Proof.
  intros Hlt. unfold require.
  destruct (Nat.leb_spec (level (Some l)) (level (effective_permission auth n)));
    [lia | reflexivity].
Qed.

Lemma require_admin (auth : Auth) (n : Node) :
  effective_permission auth n = Some ADMIN -> require auth n ADMIN = Return tt.
Proof. intros E. unfold require. by rewrite E. Qed.

(** Where a view is under [must_have_permission], the guard runs before
    the view: a call by an actor below the required level raises the
    permission error and leaves the node as it was, whatever the view does.
    In particular
    setting a valid project public without admin raises the permission
    error and changes nothing, and setting it public as an admin while the
    node is retracted or archiving raises a bad request that carries the
    message of the state error, and changes nothing. *)
Theorem set_privacy_guard_first (auth : Auth) (node : Node) :
  (forall (A : Type) (view : M Node A) (l : Permission),
     (level (effective_permission auth node) < level (Some l))%nat ->
     must_have_permission l auth view node = (Raise PermissionsError, node)) /\
  (must_be_valid_project node = None ->
   (level (effective_permission auth node) < level (Some ADMIN))%nat ->
   project_set_privacy must_be_valid_project state_error_message auth (Some "public") node
   = (Raise PermissionsError, node)) /\
  (must_be_valid_project node = None ->
   effective_permission auth node = Some ADMIN ->
   is_retracted node = true \/ archiving node = true ->
   project_set_privacy must_be_valid_project state_error_message auth (Some "public") node
   = (Raise (HTTPError BAD_REQUEST
               [("message_short", "Can't change privacy");
                ("message_long", state_error_message node)]), node)).
Proof.
  split; [| split].
  - intros A view l Hlt. unfold must_have_permission.
    by rewrite (require_below _ _ _ Hlt).
  - intros V Hlt. unfold project_set_privacy, guarded. rewrite V.
    unfold must_have_permission. by rewrite (require_below _ _ _ Hlt).
  - intros V Ha B. unfold project_set_privacy, guarded. rewrite V.
    unfold must_have_permission. rewrite (require_admin _ _ Ha).
    unfold project_set_privacy_body, seq, try_except, set_privacy.
    rewrite (require_admin _ _ Ha). simpl.
    assert (Hb : is_retracted node || archiving node = true).
    { destruct B as [-> | ->]; [reflexivity | apply orb_true_r]. }
    by rewrite Hb.
Qed.

End PrivacyFacts.

Lemma set_privacy_guard_first_witness :
  project_set_privacy always_valid sample_message (mkAuth (Some "bob")) (Some "public") project
  = (Raise PermissionsError, project)
  /\ project_set_privacy always_valid sample_message (mkAuth (Some "ann")) (Some "public")
       archiving_project
     = (Raise (HTTPError BAD_REQUEST
                 [("message_short", "Can't change privacy");
                  ("message_long", "blocked")]), archiving_project).
Proof.
  split.
  - apply (set_privacy_guard_first always_valid sample_message
             (mkAuth (Some "bob")) project); [reflexivity | vm_compute; lia].
  - apply (set_privacy_guard_first always_valid sample_message
             (mkAuth (Some "ann")) archiving_project);
      [reflexivity | reflexivity | right; reflexivity].
Defined.

End PrivacyFacts.

Module PointerGuardsFacts.
Import Pointers PointerGuards.

(** C4 (code bug). Not every view that changes a node runs a permission
    guard first.  The actor [eve] has no permission on the nodes [a] and
    [c].  The view [add_pointers], which is under
    [must_have_permission(WRITE)], ends with the permission error and leaves
    the world as it was.  The views [add_pointer] and [move_pointers], which
    are under [collect_auth] only, return for the same actor: the first has
    added a pointer to [b] on the record of [c], the second has moved the
    pointer to [b] from the record of [a] to the record of [c]. *)
Theorem pointer_views_run_unguarded :
  Permissions.require eve node_a WRITE = Raise PermissionsError
  /\ Permissions.require eve node_c WRITE = Raise PermissionsError
  /\ add_pointers_route unrelated no_registration eve node_c (Some ["b"]) sample_world
     = (Raise PermissionsError, sample_world)
  /\ (let out := add_pointer_route unrelated eve (Some "c") (Some "b") sample_world in
      out.1 = Return JNull
      /\ record sample_world "c" = mkNode []
      /\ record out.2 "c" = mkNode [mkPointer 1 "b" false])
  /\ (let out :=
        move_pointers_route unrelated eve (Some "a") (Some "c") (Some ["b"]) sample_world in
      out.1 = Return (JObj [])
      /\ record sample_world "a" = mkNode [mkPointer 0 "b" false]
      /\ record out.2 "a" = mkNode [mkPointer 0 "b" true]
      /\ record out.2 "c" = mkNode [mkPointer 1 "b" false]).
Proof. repeat split; vm_compute; reflexivity. Qed.

End PointerGuardsFacts.

Module ForkFacts.
Import Permissions Fork.

Section ForkFacts.
Context {World : Type}.
Variable must_be_logged_in : Auth -> option exn.
Variable must_be_valid_project : Node -> option exn.
Variable DISK_SAVING_MODE : bool.
Variable disk_saving_status : http_status.
Variable fork : Node -> Auth -> World -> Node * World.

(** C5. For a logged-in actor and a valid project: while the disk-saving
    mode is active the view raises the HTTP error of that mode before any
    fork work, the world being as it was; otherwise an actor without read
    access gets forbidden and nothing is forked; otherwise the view returns
    the url of the new fork and leaves the world that the fork engine
    made. *)
Theorem node_fork_page_outcomes (auth : Auth) (node : Node) (w : World) :
  must_be_logged_in auth = None ->
  must_be_valid_project node = None ->
  let out := node_fork_page must_be_logged_in must_be_valid_project
               DISK_SAVING_MODE disk_saving_status fork auth node w in
  (DISK_SAVING_MODE = true ->
     out = (Raise (HTTPError disk_saving_status []), w)) /\
  (DISK_SAVING_MODE = false -> effective_permission auth node = None ->
     out = (Raise (HTTPError FORBIDDEN [("redirect_url", url node)]), w)) /\
  (DISK_SAVING_MODE = false -> effective_permission auth node <> None ->
     out = (Return (url (fork node auth w).1), (fork node auth w).2)).
Proof.
  intros L V out. subst out. unfold node_fork_page, guarded. rewrite L, V.
  unfold http_error_if_disk_saving_mode. split; [| split].
  - intros ->. reflexivity.
  - intros -> E. unfold node_fork_page_body, seq, try_except, fork_node, require.
    rewrite E. reflexivity.
  - intros -> E. unfold node_fork_page_body, seq, try_except, fork_node, require.
    assert (Hl : (level (Some READ) <=? level (effective_permission auth node))%nat = true).
    { apply Nat.leb_le. destruct (effective_permission auth node) as [[]|]; simpl; try lia.
      by destruct E. }
    rewrite Hl. by destruct (fork node auth w).
Qed.

End ForkFacts.

Lemma node_fork_page_outcomes_witness :
  node_fork_page logged_in Privacy.always_valid true METHOD_NOT_ALLOWED sample_fork
    (mkAuth (Some "bob")) Privacy.project []
  = (Raise (HTTPError METHOD_NOT_ALLOWED []), [])
  /\ node_fork_page logged_in Privacy.always_valid false METHOD_NOT_ALLOWED sample_fork
       (mkAuth (Some "eve")) Privacy.project []
     = (Raise (HTTPError FORBIDDEN [("redirect_url", "/p/")]), [])
  /\ (node_fork_page logged_in Privacy.always_valid false METHOD_NOT_ALLOWED sample_fork
        (mkAuth (Some "bob")) Privacy.project []).1
     = Return "/p-fork/".
Proof.
  split; [| split].
  - apply (node_fork_page_outcomes logged_in Privacy.always_valid true METHOD_NOT_ALLOWED
             sample_fork (mkAuth (Some "bob")) Privacy.project []); reflexivity.
  - apply (node_fork_page_outcomes logged_in Privacy.always_valid false METHOD_NOT_ALLOWED
             sample_fork (mkAuth (Some "eve")) Privacy.project []); reflexivity.
  - destruct (node_fork_page_outcomes logged_in Privacy.always_valid false METHOD_NOT_ALLOWED
             sample_fork (mkAuth (Some "bob")) Privacy.project [] eq_refl eq_refl)
      as (_ & _ & H).
    rewrite H; [reflexivity | reflexivity | vm_compute; discriminate].
Defined.

End ForkFacts.

Module UpdateFacts.
Import Update.

Section UpdateFacts.
Variable WRITABLE_WHITELIST : list string.
Variable r_strip_html : gmap string json -> gmap string json.
Variable differs : json -> json -> bool.
Variable validate_title : json -> bool.
Variable reason : string -> string.
Variable tags_as_strings : gmap string json -> json.

Local Abbreviation writable := (writable WRITABLE_WHITELIST).
Local Abbreviation offending := (offending WRITABLE_WHITELIST).
Local Abbreviation changed := (changed differs).
Local Abbreviation apply_fields := (apply_fields differs validate_title).
Local Abbreviation update := (update WRITABLE_WHITELIST differs validate_title reason).
Local Abbreviation updated_fields_dict := (updated_fields_dict tags_as_strings).
Local Abbreviation shown_value := (shown_value tags_as_strings).
Local Abbreviation update_node :=
  (update_node WRITABLE_WHITELIST r_strip_html differs validate_title reason
     tags_as_strings).

Lemma writable_In (key : string) : writable key = true <-> In key WRITABLE_WHITELIST.
Proof.
  unfold Update.writable. rewrite existsb_exists. split.
  - intros (x & Hin & E%String.eqb_eq). by subst.
  - intros Hin. exists key. split; [exact Hin | apply String.eqb_refl].
Qed.

Lemma offending_Some (fields : list (string * json)) (k : string) :
  offending fields = Some k -> exists v, In (k, v) fields /\ writable k = false.
Proof.
  unfold Update.offending.
  destruct (List.find _ fields) as [[k' v]|] eqn:F; [| discriminate].
  intros [= <-]. apply find_some in F as [Hin Hw]. exists v.
  split; [exact Hin | by apply negb_true_iff in Hw].
Qed.

Lemma offending_None (fields : list (string * json)) :
  offending fields = None -> forall kv, In kv fields -> writable kv.1 = true.
Proof.
  unfold Update.offending.
  destruct (List.find _ fields) as [kv'|] eqn:F; [discriminate |].
  intros _ kv Hin. apply (find_none _ _ F) in Hin. by apply negb_false_iff in Hin.
Qed.

Lemma changed_insert_ne (a : gmap string json) (key k : string) (value v : json) :
  key <> k -> changed (<[key := value]> a) k v = changed a k v.
Proof. intros Hne. unfold Update.changed. by rewrite lookup_insert_ne. Qed.

(** The loop of [update] over fields with distinct names: it writes no
    record and touches only the attributes it is given; a field whose value
    does not differ keeps its attribute; and when the loop returns, it
    returns the names of the fields whose value differs, each now holding
    the new value. *)
Lemma apply_fields_spec (fields : list (string * json)) :
  forall names w,
    NoDup (map fst fields) ->
    let out := apply_fields fields names w in
    let news := List.filter (fun kv => changed (attrs w) kv.1 kv.2) fields in
    stored out.2 = stored w /\
    (forall k, ~ In k (map fst fields) -> attrs out.2 !! k = attrs w !! k) /\
    (forall kv, In kv fields -> changed (attrs w) kv.1 kv.2 = false ->
       attrs out.2 !! kv.1 = attrs w !! kv.1) /\
    (forall names', out.1 = Return names' ->
       names' = names ++ map fst news /\
       forall kv, In kv news -> attrs out.2 !! kv.1 = Some kv.2).
Proof.
  induction fields as [|[key value] rest IH]; intros names w ND; simpl.
  - split; [reflexivity |]. split; [reflexivity |]. split; [intros ? [] |].
    intros names' [= <-]. by rewrite app_nil_r.
  - apply NoDup_ListNoDup in ND. simpl in ND. apply List.NoDup_cons_iff in ND as [Hk ND].
    apply NoDup_ListNoDup in ND.
    destruct (String.eqb key "title" && negb (validate_title value)); simpl.
    { split; [reflexivity |]. split; [reflexivity |]. split; [reflexivity |].
      intros ? [=]. }
    destruct (changed (attrs w) key value) eqn:C.
    + set (w1 := mkWorld (<[key := value]> (attrs w)) (stored w)).
      destruct (IH (names ++ [key]) w1 ND) as (Hs & Ha & Hu & Hr).
      assert (Hc : forall kv, In kv rest ->
                     changed (attrs w1) kv.1 kv.2 = changed (attrs w) kv.1 kv.2).
      { intros [k v] Hin. simpl. apply changed_insert_ne. intros ->. apply Hk.
        apply in_map_iff. by exists (k, v). }
      assert (F : List.filter (fun kv => changed (attrs w1) kv.1 kv.2) rest
                  = List.filter (fun kv => changed (attrs w) kv.1 kv.2) rest).
      { by apply List.filter_ext_in. }
      rewrite F in Hr.
      split; [exact Hs |]. split; [| split].
      * intros k Hn. rewrite Ha by tauto. simpl. apply lookup_insert_ne. tauto.
      * intros kv [<- | Hin] Hf; [simpl in Hf; congruence |].
        rewrite Hu; [| exact Hin | by rewrite Hc]. simpl.
        apply lookup_insert_ne. intros ->. apply Hk. apply in_map_iff. by exists kv.
      * intros names' E. destruct (Hr names' E) as [-> Hv]. split.
        -- by rewrite <- app_assoc.
        -- intros kv [<- | Hin]; [| by apply Hv].
           simpl. rewrite Ha by exact Hk. simpl. apply lookup_insert_eq.
    + destruct (IH names w ND) as (Hs & Ha & Hu & Hr).
      split; [exact Hs |]. split; [| split].
      * intros k Hn. apply Ha. tauto.
      * intros kv [<- | Hin] Hf; [by apply Ha | by apply Hu].
      * exact Hr.
Qed.

(** The loop returns when every title it is given is valid. *)
Lemma apply_fields_returns (fields : list (string * json)) :
  forall names w,
    (forall v, In ("title", v) fields -> validate_title v = true) ->
    exists names', (apply_fields fields names w).1 = Return names'.
Proof.
  induction fields as [|[key value] rest IH]; intros names w Hv; simpl.
  - by exists names.
  - assert (Hrest : forall v, In ("title", v) rest -> validate_title v = true).
    { intros v Hin. apply Hv. by right. }
    destruct (String.eqb key "title") eqn:K; simpl.
    + apply String.eqb_eq in K. subst key.
      rewrite (Hv value (or_introl eq_refl)). simpl.
      destruct (changed (attrs w) "title" value); by apply IH.
    + destruct (changed (attrs w) key value); by apply IH.
Qed.

(** The dictionary of the view for the fields that were set: the fields
    but [logs] and [date_modified], each with the value shown for it. *)
Lemma updated_fields_dict_news (w : World) (news : list (string * json)) :
  (forall kv, In kv news -> attrs w !! kv.1 = Some kv.2) ->
  updated_fields_dict (map fst news) w
  = Return (map (fun kv => (kv.1, shown_value w kv.1 kv.2))
              (List.filter (fun kv => reported kv.1) news)).
Proof.
  unfold Update.updated_fields_dict.
  induction news as [|[k v] news IH]; intros Hn; [reflexivity |].
  assert (Hrest : forall kv, In kv news -> attrs w !! kv.1 = Some kv.2).
  { intros kv Hin. apply Hn. by right. }
  simpl. destruct (reported k) eqn:R; simpl; [| by apply IH].
  rewrite (IH Hrest). unfold Update.field_value, Update.shown_value.
  destruct (String.eqb k "tags"); simpl; [reflexivity |].
  pose proof (Hn (k, v) (or_introl eq_refl)) as L. simpl in L.
  unfold getattr. by rewrite L.
Qed.

Lemma whitelisted_reported (k : string) :
  In k category_title_description ->
  reported k = true /\ String.eqb k "tags" = false.
Proof.
  intros [<- | [<- | [<- | []]]]; split; reflexivity.
Qed.

Lemma protected_not_whitelisted (k : string) :
  In k protected_fields -> ~ In k category_title_description.
Proof.
  unfold protected_fields, category_title_description. simpl.
  intros Hk W.
  repeat (destruct Hk as [<- | Hk];
          [repeat (destruct W as [W | W]; [discriminate |]); exact W |]).
  exact Hk.
Qed.

(** C6. Whatever the whitelist and the request:
    - no attribute outside the whitelist and no attribute that the request
      does not name changes, and a call that raises persists nothing;
    - a request that names a field outside the whitelist raises a bad
      request whose message names such a field, the node being as it was;
    - a request that names only fields of the whitelist, with a valid title
      if it has one, returns;
    - when the view returns, the node is saved, every field of the request
      is on the whitelist and holds its new value where that differed, and
      the returned dictionary names exactly the fields whose value differed,
      except [logs] and [date_modified], each with its new value ([tags]
      with its tags as strings);
    - with the whitelist that the view states in its comment (category,
      title, description), permissions, tree links and audit fields never
      change and the returned dictionary is exactly the fields of the
      request whose value differed, with their new values. *)
Theorem update_node_whitelist (request_json : gmap string json) (w : World) :
  let data := r_strip_html request_json in
  let out := update_node request_json w in
  ((forall k, ~ In k WRITABLE_WHITELIST \/ data !! k = None ->
      attrs out.2 !! k = attrs w !! k) /\
   (forall e, out.1 = Raise e -> stored out.2 = stored w)) /\
  ((exists k, is_Some (data !! k) /\ ~ In k WRITABLE_WHITELIST) ->
   exists k, is_Some (data !! k) /\ ~ In k WRITABLE_WHITELIST /\
     out = (Raise (HTTPError BAD_REQUEST
                     [("message_short", ("Failed to update attribute '" ++ k ++ "'")%string);
                      ("message_long", reason k)]), w)) /\
  ((forall k, is_Some (data !! k) -> In k WRITABLE_WHITELIST) ->
   (forall v, data !! "title" = Some v -> validate_title v = true) ->
   exists fields, out.1 = Return fields) /\
  (forall fields, out.1 = Return fields ->
     stored out.2 = attrs out.2 /\
     (forall k new, data !! k = Some new ->
        In k WRITABLE_WHITELIST /\
        attrs out.2 !! k = (if changed (attrs w) k new then Some new else attrs w !! k)) /\
     (forall k, In k (map fst fields) <->
        exists new, data !! k = Some new /\ changed (attrs w) k new = true
                    /\ reported k = true) /\
     (forall k v, In (k, v) fields ->
        exists new, data !! k = Some new /\ v = shown_value out.2 k new)) /\
  (WRITABLE_WHITELIST = category_title_description ->
   Forall (fun k => attrs out.2 !! k = attrs w !! k) protected_fields /\
   forall fields, out.1 = Return fields ->
     forall k v, In (k, v) fields <->
                 data !! k = Some v /\ changed (attrs w) k v = true).
Proof.
  intros data out.
  assert (ND : NoDup (map fst (map_to_list data))) by apply NoDup_fst_map_to_list.
  assert (Hdata : forall k v, In (k, v) (map_to_list data) <-> data !! k = Some v).
  { intros k v. rewrite <- list_elem_of_In. apply elem_of_map_to_list. }
  assert (Hnone : forall k, data !! k = None -> ~ In k (map fst (map_to_list data))).
  { intros k Hk ([k' v] & E & Hin)%in_map_iff. simpl in E. subst k'.
    apply Hdata in Hin. congruence. }
  pose proof (apply_fields_spec (map_to_list data) [] w ND) as Spec.
  cbv zeta in Spec. destruct Spec as (Hs & Ha & Hu & Hr).
  (* the five parts follow from the first four, proved together *)
  assert (Main :
    ((forall k, ~ In k WRITABLE_WHITELIST \/ data !! k = None ->
        attrs out.2 !! k = attrs w !! k) /\
     (forall e, out.1 = Raise e -> stored out.2 = stored w)) /\
    ((exists k, is_Some (data !! k) /\ ~ In k WRITABLE_WHITELIST) ->
     exists k, is_Some (data !! k) /\ ~ In k WRITABLE_WHITELIST /\
       out = (Raise (HTTPError BAD_REQUEST
                       [("message_short", ("Failed to update attribute '" ++ k ++ "'")%string);
                        ("message_long", reason k)]), w)) /\
    ((forall k, is_Some (data !! k) -> In k WRITABLE_WHITELIST) ->
     (forall v, data !! "title" = Some v -> validate_title v = true) ->
     exists fields, out.1 = Return fields) /\
    (forall fields, out.1 = Return fields ->
       stored out.2 = attrs out.2 /\
       (forall k new, data !! k = Some new ->
          In k WRITABLE_WHITELIST /\
          attrs out.2 !! k = (if changed (attrs w) k new then Some new else attrs w !! k)) /\
       (forall k, In k (map fst fields) <->
          exists new, data !! k = Some new /\ changed (attrs w) k new = true
                      /\ reported k = true) /\
       (forall k v, In (k, v) fields ->
          exists new, data !! k = Some new /\ v = shown_value out.2 k new))).
  { subst out. unfold Update.update_node. fold data.
    unfold seq, try_except, Update.update.
    destruct (offending (map_to_list data)) as [bad|] eqn:Off.
    - (* a field outside the whitelist *)
      apply offending_Some in Off as (v & Hin & Hw). simpl.
      split; [split; reflexivity |]. split.
      + intros _. exists bad. split; [exists v; by apply Hdata |].
        split; [| reflexivity]. intros W%writable_In. congruence.
      + split; [| intros ? [=]].
        intros Hall _. exfalso.
        assert (W : writable bad = true).
        { apply writable_In, Hall. exists v. by apply Hdata. }
        congruence.
    - (* every field is on the whitelist *)
      pose proof (offending_None _ Off) as Hw.
      assert (Hkeys : forall k, ~ In k WRITABLE_WHITELIST \/ data !! k = None ->
                        ~ In k (map fst (map_to_list data))).
      { intros k [Hn | Hn]; [| by apply Hnone].
        intros (kv & <- & Hin)%in_map_iff. apply Hn, writable_In, Hw, Hin. }
      assert (Hnot : ~ exists k, is_Some (data !! k) /\ ~ In k WRITABLE_WHITELIST).
      { intros (k & [v Hk] & Hn). apply (Hkeys k (or_introl Hn)).
        apply in_map_iff. exists (k, v). split; [reflexivity | by apply Hdata]. }
      set (news := List.filter (fun kv => changed (attrs w) kv.1 kv.2) (map_to_list data)) in *.
      destruct (apply_fields (map_to_list data) [] w) as [[names|e] w1] eqn:E; simpl in *.
      + destruct (Hr names eq_refl) as [-> Hv].
        rewrite (updated_fields_dict_news w1 news Hv). simpl.
        split; [split; [intros k Hn; apply Ha, Hkeys, Hn | intros ? [=]] |].
        split; [intros Hex; by destruct Hnot |].
        split; [intros _ _; eauto |].
        intros fields [= <-]. split; [reflexivity |]. split; [| split].
        * intros k new Hk. apply Hdata in Hk. split; [apply writable_In, (Hw _ Hk) |].
          destruct (changed (attrs w) k new) eqn:C.
          -- apply (Hv (k, new)). unfold news. apply filter_In. by split.
          -- by apply (Hu (k, new)).
        * intros k. rewrite map_map. simpl. rewrite in_map_iff. split.
          -- intros ([k' v] & <- & Hin). apply filter_In in Hin as [Hin R].
             unfold news in Hin. apply filter_In in Hin as [Hin C].
             exists v. split; [by apply Hdata | by split].
          -- intros (new & Hk & C & R). exists (k, new). split; [reflexivity |].
             apply filter_In. split; [| exact R].
             unfold news. apply filter_In. split; [by apply Hdata | exact C].
        * intros k v Hin. apply in_map_iff in Hin as ([k' new] & [= <- <-] & Hin).
          apply filter_In in Hin as [Hin _]. unfold news in Hin.
          apply filter_In in Hin as [Hin _]. exists new. split; [by apply Hdata | reflexivity].
      + assert (Hraise : forall (e' : exn),
                  (@update_error_is_bad_request (list string) e' w1).2 = w1).
        { intros e'. by destruct e'. }
        assert (Hno : forall (e' : exn) a,
                  (@update_error_is_bad_request (list string) e' w1).1 <> Return a).
        { intros e' a. by destruct e'. }
        destruct (update_error_is_bad_request e w1) as [[a|e'] w2] eqn:E2.
        { exfalso. apply (Hno e a). by rewrite E2. }
        assert (w2 = w1) as -> by (specialize (Hraise e); by rewrite E2 in Hraise).
        simpl. split; [split; [intros k Hn; apply Ha, Hkeys, Hn | intros _ _; exact Hs] |].
        split; [intros Hex; by destruct Hnot |].
        split; [| intros ? [=]].
        intros _ Ht.
        destruct (apply_fields_returns (map_to_list data) [] w) as (names' & En).
        { intros v Hin. apply Ht. by apply Hdata. }
        rewrite E in En. discriminate. }
  destruct Main as (M1 & M2 & M3 & M4).
  split; [exact M1 |]. split; [exact M2 |]. split; [exact M3 |]. split; [exact M4 |].
  intros EW. split.
  - apply Forall_forall. intros k Hk%list_elem_of_In.
    apply (proj1 M1). left. rewrite EW. by apply protected_not_whitelisted.
  - intros fields Ef. destruct (M4 fields Ef) as (_ & Hset & Hnames & Hvals).
    intros k v. split.
    + intros Hin. destruct (Hvals k v Hin) as (new & Hk & ->).
      destruct (Hset k new Hk) as [W _]. rewrite EW in W.
      destruct (whitelisted_reported k W) as [_ T].
      unfold Update.shown_value. rewrite T. split; [exact Hk |].
      assert (Hn : In k (map fst fields)).
      { apply in_map_iff. by exists (k, shown_value out.2 k new). }
      apply Hnames in Hn as (new' & Hk' & C & _). congruence.
    + intros [Hk C]. destruct (Hset k v Hk) as [W _]. rewrite EW in W.
      destruct (whitelisted_reported k W) as [R T].
      assert (Hn : In k (map fst fields)).
      { apply Hnames. exists v. by repeat split. }
      apply in_map_iff in Hn as ([k' v'] & E & Hin). simpl in E. subst k'.
      destruct (Hvals k v' Hin) as (new & Hk' & ->).
      unfold Update.shown_value in Hin. rewrite T in Hin. congruence.
Qed.

End UpdateFacts.

Lemma refused_request_lookup :
  refused_request !! "is_public" = Some (JBool true).
Proof. reflexivity. Qed.

Lemma accepted_request_lookup (k : string) (v : json) :
  accepted_request !! k = Some v ->
  (k = "title" /\ v = JStr "New") \/ (k = "category" /\ v = JStr "project").
Proof.
  unfold accepted_request. intros Hk.
  apply lookup_insert_Some in Hk as [[<- <-] | [_ Hk]]; [by left |].
  apply lookup_insert_Some in Hk as [[<- <-] | [_ Hk]]; [by right |].
  by rewrite lookup_empty in Hk.
Qed.

Lemma update_node_whitelist_witness :
  (exists k,
     update_node category_title_description no_strip sample_differs sample_validate_title
       sample_reason sample_tags refused_request sample_world
     = (Raise (HTTPError BAD_REQUEST
                 [("message_short", ("Failed to update attribute '" ++ k ++ "'")%string);
                  ("message_long", sample_reason k)]), sample_world))
  /\ (exists fields,
        (update_node category_title_description no_strip sample_differs
           sample_validate_title sample_reason sample_tags accepted_request sample_world).1
        = Return fields
        /\ forall k v, In (k, v) fields <->
                       accepted_request !! k = Some v
                       /\ changed sample_differs (attrs sample_world) k v = true).
Proof.
  split.
  - destruct (update_node_whitelist category_title_description no_strip sample_differs
                sample_validate_title sample_reason sample_tags refused_request sample_world)
      as (_ & H & _).
    destruct H as (k & _ & _ & E).
    + exists "is_public". split; [eexists; apply refused_request_lookup |].
      simpl. intros [E | [E | [E | []]]]; discriminate.
    + exists k. exact E.
  - destruct (update_node_whitelist category_title_description no_strip sample_differs
                sample_validate_title sample_reason sample_tags accepted_request sample_world)
      as (_ & _ & Hret & _ & Hcomment).
    destruct Hret as (fields & E).
    + intros k [v Hk]. apply accepted_request_lookup in Hk as [[-> _] | [-> _]];
        simpl; tauto.
    + intros v Hk. apply accepted_request_lookup in Hk as [[_ ->] | [[=] _]]. reflexivity.
    + exists fields. split; [exact E |].
      destruct (Hcomment eq_refl) as [_ Hf]. exact (Hf fields E).
Defined.

End UpdateFacts.


Module SearchFacts.
Import Search.

Lemma for_each_In {A B} (f : A -> result B) (l : list A) :
  forall r, for_each f l = Return r ->
  forall b, In b r -> exists a, In a l /\ f a = Return b.
Proof.
  induction l as [|a l IH]; simpl; intros r E b Hb.
  - injection E as <-. destruct Hb.
  - destruct (f a) as [b'|e] eqn:Fa; simpl in E; [| discriminate].
    destruct (for_each f l) as [bs|e] eqn:Fl; simpl in E; [| discriminate].
    injection E as <-. destruct Hb as [<- | Hb].
    + exists a. split; [by left | exact Fa].
    + destruct (IH bs eq_refl b Hb) as (a' & Hin & Ha'). exists a'. split; [by right | exact Ha'].
Qed.

Lemma In_islice {A} (l : list A) (start stop : nat) (x : A) :
  In x (islice l start stop) -> In x l.
Proof.
  unfold islice. intros Hin.
  rewrite <- (firstn_skipn start l). apply in_or_app. right.
  rewrite <- (firstn_skipn (stop - start) (skipn start l)). apply in_or_app. by left.
Qed.

Lemma In_existsb_eqb (u : string) (l : list string) :
  existsb (String.eqb u) l = true <-> In u l.
Proof.
  rewrite existsb_exists. split.
  - intros (x & Hin & E%String.eqb_eq). by subst.
  - intros Hin. exists u. split; [exact Hin | apply String.eqb_refl].
Qed.

Lemma Node_load_id (store : list Node) (k : key) (host : Node) :
  Node_load store (JStr k) = Some host -> _id host = k /\ In host store.
Proof.
  simpl. intros [Hin E%String.eqb_eq]%find_some. auto.
Qed.

Lemma Node_load_None (store : list Node) (k : key) (n : Node) :
  Node_load store (JStr k) = None -> In n store -> _id n <> k.
Proof.
  simpl. intros Hnone Hin E. apply (find_none _ _ Hnone) in Hin.
  rewrite E, String.eqb_refl in Hin. discriminate.
Qed.

Lemma serialized_id (n : Node) (e : Serialized) :
  _serialize_node_search n = Return e -> s_id e = _id n.
Proof.
  unfold _serialize_node_search. destruct (visible_contributors n); [discriminate |].
  by intros [= <-].
Qed.

Section SearchFacts.
Context {F : Type} `{FloatOps F}.
Variable icontains : string -> string -> bool.
Variable validate_page_num : json -> F -> option exn.

Local Abbreviation search_node := (search_node icontains validate_page_num).
Local Abbreviation matches := (matches icontains).

Lemma visibility_matches (user : User) (include_public : json) (n : Node) :
  matches (if truthy include_public
           then q_or (contributors_eq user) (is_public_eq true)
           else contributors_eq user) n = true ->
  In user (contributors n)
  \/ (truthy include_public = true /\ is_public n = true).
Proof.
  destruct (truthy include_public); simpl.
  - intros [E | E]%orb_true_iff.
    + left. by apply In_existsb_eqb.
    + right. split; [reflexivity |]. by destruct (is_public n).
  - intros E. left. by apply In_existsb_eqb.
Qed.

Lemma odm_query_found (store : list Node) (user : User)
    (request_json : list (string * json)) (query : string) (n : Node) :
  let base :=
    q_and (q_and (q_and (title_icontains query) (is_deleted_eq false))
                 (if truthy (json_get request_json "includePublic")
                  then q_or (contributors_eq user) (is_public_eq true)
                  else contributors_eq user))
          (is_collection_eq false) in
  In n (Node_find icontains store
          match Node_load store (json_get request_json "nodeId") with
          | Some node => q_and base (_id_nin (_id node :: node_ids node))
          | None => base
          end) ->
  found store user request_json n.
Proof.
  intros base. unfold Node_find. intros [Hin M]%filter_In.
  assert (Hbase : matches base n = true /\
                  forall host, Node_load store (json_get request_json "nodeId") = Some host ->
                    _id n <> _id host /\ ~ In (_id n) (node_ids host)).
  { destruct (Node_load store (json_get request_json "nodeId")) as [node|].
    - simpl in M. apply andb_true_iff in M as [Mb Mn]. split; [exact Mb |].
      intros host [= <-]. apply negb_true_iff in Mn.
      apply orb_false_iff in Mn as [Mid Mch]. split.
      + intros E. rewrite E, String.eqb_refl in Mid. discriminate.
      + intros Hc%In_existsb_eqb. congruence.
    - split; [exact M | discriminate]. }
  destruct Hbase as [Mb Hex]. subst base. simpl in Mb.
  apply andb_true_iff in Mb as [Mb Mc]. apply andb_true_iff in Mb as [Mb Mv].
  apply andb_true_iff in Mb as [_ Md].
  unfold found. split; [exact Hin |]. split; [by destruct (is_deleted n) |].
  split; [by destruct (is_collection n) |].
  split; [by apply visibility_matches |]. split; [exact Hex |].
  intros k Ek. rewrite Ek in Hex.
  destruct (Node_load store (JStr k)) as [host|] eqn:L.
  - destruct (Node_load_id _ _ _ L) as [<- _]. by apply Hex.
  - by apply Node_load_None with store.
Qed.

(** C8 (amended). When the size argument is a string that reads as a
    number, the page argument can be multiplied by it (it is a number, and
    as an integer it is within the range of floats) and the query argument
    is a string that is empty after trimming, the view returns an empty list
    of nodes and runs no search.  Whenever the view returns,
    every node of the result serializes a stored node that is not deleted,
    not a collection, visible to the caller (who is a contributor, or the
    node is public and [includePublic] is set), and that is neither the node
    of [nodeId] nor one of the nodes listed in it. *)
Theorem search_node_results (store : list Node) (user : User)
    (request_json : list (string * json)) :
  (forall size_str size start,
     json_strip (default (JStr "5") (assoc "size" request_json)) = Return size_str ->
     float_of_string size_str = Some size ->
     mul_page (default (JNum 0%Q) (assoc "page" request_json)) size = Return start ->
     json_strip (default (JStr "") (assoc "query" request_json)) = Return "" ->
     search_node store user request_json = Return (mkResponse [] None)) /\
  (forall resp,
     search_node store user request_json = Return resp ->
     forall e, In e (nodes resp) ->
     exists n, found store user request_json n
               /\ _serialize_node_search n = Return e
               /\ s_id e = _id n).
Proof.
  unfold Search.search_node. split.
  - intros size_str size start -> Hf Hm ->. simpl. rewrite Hf. simpl.
    rewrite Hm. reflexivity.
  - intros resp.
    destruct (json_strip (default (JStr "5") (assoc "size" request_json)))
      as [size_str|]; simpl; [| discriminate].
    destruct (float_of_string size_str) as [size|]; simpl; [| discriminate].
    destruct (json_strip (default (JStr "") (assoc "query" request_json)))
      as [query|]; simpl; [| discriminate].
    destruct (mul_page _ size) as [start|]; simpl; [| discriminate].
    destruct (String.eqb query ""); [intros [= <-] e []|].
    match goal with
    | |- context [Node_find icontains store ?q] => set (odm_query := q)
    end.
    destruct (ceil_div _ size) as [pages|]; simpl; [| discriminate].
    destruct (validate_page_num _ pages); simpl; [discriminate |].
    destruct (to_index start) as [first|]; simpl; [| discriminate].
    destruct (to_index (add start size)) as [last|]; simpl; [| discriminate].
    destruct (for_each _ _) as [serialized|] eqn:E; simpl; [| discriminate].
    intros [= <-] e He. simpl in He.
    destruct (for_each_In _ _ _ E e He) as (n & Hin & Hs).
    apply filter_In in Hin as [Hin _]. apply In_islice in Hin.
    exists n. split; [| split; [exact Hs | by apply serialized_id]].
    by apply (odm_query_found store user request_json query).
Qed.

End SearchFacts.

(** C8, counterexample.  With an empty query, a size that is no number
    raises [ValueError], a size that is a JSON number, which has no
    [strip], raises [AttributeError], and a page that is an integer of 401
    digits raises [OverflowError] when it is multiplied by the size; no
    empty list is returned. *)
Lemma search_node_empty_query_raises :
  json_strip (json_get [("query", JStr ""); ("size", JStr "abc")] "query") = Return ""
  /\ search_node sample_icontains any_page sample_store "ann"
       [("query", JStr ""); ("size", JStr "abc")]
     = Raise ValueError
  /\ search_node sample_icontains any_page sample_store "ann"
       [("query", JStr ""); ("size", JNum 10)]
     = Raise AttributeError
  /\ search_node sample_icontains any_page sample_store "ann"
       [("query", JStr ""); ("size", JStr "5"); ("page", JNum (inject_Z (10 ^ 400)))]
     = Raise OverflowError.
Proof. repeat split; vm_compute; reflexivity. Qed.

Lemma search_node_results_witness :
  search_node sample_icontains any_page sample_store "ann" [("query", JStr "  ")]
  = Return (mkResponse [] None)
  /\ (forall resp,
        search_node sample_icontains any_page sample_store "ann"
          [("query", JStr "data"); ("includePublic", JBool true); ("nodeId", JStr "p")]
        = Return resp ->
        forall e, In e (nodes resp) -> s_id e = "q").
Proof.
  split.
  - apply (search_node_results sample_icontains any_page sample_store "ann"
             [("query", JStr "  ")] ) with (size_str := "5") (size := 5%Q) (start := 0%Q);
      vm_compute; reflexivity.
  - intros resp E e He.
    destruct (proj2 (search_node_results sample_icontains any_page sample_store "ann" _)
                resp E e He) as (n & Hf & _ & ->).
    destruct Hf as (Hin & Hdel & _ & _ & Hhost & _).
    specialize (Hhost _ eq_refl). simpl in Hhost.
    simpl in Hin. destruct Hin as [<- | [<- | [<- | [<- | []]]]]; simpl in *.
    + by destruct Hhost as [? _].
    + destruct Hhost as [_ N]. destruct N. by left.
    + reflexivity.
    + discriminate.
Defined.

End SearchFacts.

(** * Further properties of the views *)

Module ReorderMore.
Import Reorder ReorderFacts.

Lemma length_str_split (sep : ascii) (s : string) :
  length (str_split sep s) = S (count_char sep s).
Proof.
  induction s as [|c s IH]; [reflexivity |]. simpl.
  destruct (Ascii.eqb c sep); simpl; [by rewrite IH |].
  destruct (str_split sep s) as [|h t]; [discriminate | exact IH].
Qed.

Section ReorderMore.
Context {Obj : Type} `{Countable Obj}.
Variable is_deleted : Obj -> bool.
Variable load : string -> key -> result (option Obj).

Lemma nodes_new_of_colons (new_list : list string) (nodes_new : list (option Obj)) :
  nodes_new_of load new_list = Return nodes_new ->
  Forall (fun n => count_char ":" n = 1) new_list
  /\ length nodes_new = length new_list.
Proof.
  revert nodes_new. unfold nodes_new_of.
  induction new_list as [|n l IH]; simpl; intros nodes_new E.
  - injection E as <-. split; [constructor | reflexivity].
  - destruct (load_entry load n) as [o|e] eqn:En; simpl in E; [| discriminate].
    destruct (for_each (load_entry load) l) as [os|e] eqn:El; simpl in E; [| discriminate].
    injection E as <-. destruct (IH os eq_refl) as [F L]. split; [| simpl; by rewrite L].
    constructor; [| exact F].
    unfold load_entry in En. pose proof (length_str_split ":" n) as Hl.
    destruct (str_split ":" n) as [|k [|sch [|x r]]]; try discriminate.
    simpl in Hl. lia.
Qed.

Lemma accepted_order (new_list : list string) (w : World) :
  (project_reorder_components is_deleted load new_list w).1 = Return tt ->
  exists nodes_new,
    nodes_new_of load new_list = Return nodes_new
    /\ length (valid_nodes is_deleted w) = length nodes_new
    /\ nodes_new = Some <$> loaded nodes_new
    /\ (forall x, In x (loaded nodes_new) <-> In x (valid_nodes is_deleted w))
    /\ (project_reorder_components is_deleted load new_list w).2
       = save (set_nodes (loaded nodes_new ++ deleted_nodes is_deleted w) w).
Proof.
  unfold project_reorder_components.
  destruct (nodes_new_of load new_list) as [nodes_new|e]; [| discriminate].
  destruct (_ && _) eqn:C; [| discriminate]. intros _.
  apply andb_true_iff in C as [L S]. apply Nat.eqb_eq in L.
  apply same_set_incl in S as [I1 I2].
  assert (E : nodes_new = Some <$> loaded nodes_new).
  { assert (F : Forall is_Some nodes_new).
    { apply Forall_forall. intros o Ho%list_elem_of_In%I2.
      apply list_elem_of_In, list_elem_of_fmap in Ho as (x & -> & _). eauto. }
    clear -F. unfold loaded. induction F as [|o l [a ->] _ IH]; [reflexivity |].
    csimpl. by f_equal. }
  exists nodes_new. repeat split; try done.
  - intros Hx. assert (Hs : In (Some x) nodes_new).
    { rewrite E. apply list_elem_of_In, list_elem_of_fmap. exists x.
      split; [reflexivity | by apply list_elem_of_In]. }
    apply I2, list_elem_of_In, list_elem_of_fmap in Hs as (y & [= <-] & Hy).
    by apply list_elem_of_In.
  - intros Hx. assert (Hs : In (Some x) (Some <$> valid_nodes is_deleted w)).
    { apply list_elem_of_In, list_elem_of_fmap. exists x.
      split; [reflexivity | by apply list_elem_of_In]. }
    apply I1 in Hs. rewrite E in Hs.
    apply list_elem_of_In, list_elem_of_fmap in Hs as (y & [= <-] & Hy).
    by apply list_elem_of_In.
Qed.

Lemma length_valid_deleted (w : World) :
  length (valid_nodes is_deleted w) + length (deleted_nodes is_deleted w)
  = length (nodes w).
Proof.
  unfold valid_nodes, deleted_nodes. induction (nodes w) as [|x l IH]; [reflexivity |].
  simpl. destruct (is_deleted x); simpl; lia.
Qed.

Lemma In_valid_deleted (w : World) (x : Obj) :
  In x (nodes w) <->
  In x (valid_nodes is_deleted w) \/ In x (deleted_nodes is_deleted w).
Proof.
  unfold valid_nodes, deleted_nodes. rewrite !filter_In.
  destruct (is_deleted x); simpl; intuition congruence.
Qed.

Lemma reorder_raise_unchanged (new_list : list string) (w : World) (e : exn) :
  (project_reorder_components is_deleted load new_list w).1 = Raise e ->
  (project_reorder_components is_deleted load new_list w).2 = w.
Proof.
  unfold project_reorder_components.
  destruct (nodes_new_of load new_list) as [nodes_new|e']; [| reflexivity].
  destruct (_ && _); [discriminate | reflexivity].
Qed.

(** X1. Whatever the submitted list and whether the view returns or
    raises, the node keeps as many children as it had and the same
    children: reordering adds none and loses none. *)
Theorem reorder_keeps_children (new_list : list string) (w : World) :
  let out := project_reorder_components is_deleted load new_list w in
  length (nodes out.2) = length (nodes w)
  /\ (forall x, In x (nodes out.2) <-> In x (nodes w)).
Proof.
  intros out. subst out.
  destruct ((project_reorder_components is_deleted load new_list w).1) as [[]|e] eqn:E.
  - destruct (accepted_order new_list w E) as (nodes_new & _ & L & En & Hin & ->).
    simpl. split.
    + rewrite length_app, <- length_valid_deleted.
      f_equal. rewrite L. rewrite En at 2. by rewrite length_fmap.
    + intros x. rewrite in_app_iff, Hin. symmetry. apply In_valid_deleted.
  - by rewrite (reorder_raise_unchanged _ _ _ E).
Qed.

Lemma deleted_nodes_app (objs : list Obj) (w : World) :
  Forall (fun n => is_deleted n = false) objs ->
  List.filter is_deleted (objs ++ deleted_nodes is_deleted w) = deleted_nodes is_deleted w.
Proof.
  intros A. rewrite List.filter_app.
  assert (E1 : List.filter is_deleted objs = []).
  { induction A as [|x l Hx _ IH]; simpl; [reflexivity |]. by rewrite Hx. }
  rewrite E1. simpl. unfold deleted_nodes.
  induction (nodes w) as [|x l IH]; simpl; [reflexivity |].
  destruct (is_deleted x) eqn:D; simpl; [rewrite D; by f_equal | exact IH].
Qed.

(** X2. An order that the view accepts is accepted again on the node it
    leaves, and the second call changes nothing: reordering is idempotent. *)
Theorem reorder_twice (new_list : list string) (w : World) :
  (project_reorder_components is_deleted load new_list w).1 = Return tt ->
  let w1 := (project_reorder_components is_deleted load new_list w).2 in
  project_reorder_components is_deleted load new_list w1 = (Return tt, w1).
Proof.
  intros E. destruct (accepted_order new_list w E) as (nodes_new & En & L & Es & Hin & ->).
  cbv zeta. set (objs := loaded nodes_new) in *.
  assert (A : Forall (fun n => is_deleted n = false) objs).
  { apply Forall_forall. intros x Hx%list_elem_of_In%Hin.
    apply filter_In in Hx as [_ Hx]. by apply negb_true_iff. }
  set (w1 := save (set_nodes (objs ++ deleted_nodes is_deleted w) w)).
  assert (V1 : valid_nodes is_deleted w1 = objs)
    by apply (filter_active_app is_deleted objs w A).
  assert (D1 : deleted_nodes is_deleted w1 = deleted_nodes is_deleted w)
    by apply (deleted_nodes_app objs w A).
  unfold project_reorder_components. rewrite En, V1, D1.
  assert (C : (length objs =? length nodes_new)%nat && same_set objs nodes_new = true).
  { apply andb_true_iff. split.
    - apply Nat.eqb_eq. rewrite Es. by rewrite length_fmap.
    - apply same_set_Permutation. by rewrite <- Es. }
  by rewrite C.
Qed.

(** X3. When the view accepts a list, every entry of it holds exactly one
    colon, and the list has as many entries as the node has active
    children. *)
Theorem reorder_accepted_entries (new_list : list string) (w : World) :
  (project_reorder_components is_deleted load new_list w).1 = Return tt ->
  Forall (fun n => count_char ":" n = 1) new_list
  /\ length new_list = length (valid_nodes is_deleted w).
Proof.
  intros E. destruct (accepted_order new_list w E) as (nodes_new & En & L & _).
  destruct (nodes_new_of_colons _ _ En) as [F Ll]. split; [exact F | congruence].
Qed.

End ReorderMore.

Lemma reorder_twice_witness :
  project_reorder_components c_deleted load_any ["b:node"; "a:node"]
    (project_reorder_components c_deleted load_any ["b:node"; "a:node"] sample_world).2
  = (Return tt, mkWorld ["b"; "a"; "c"] ["b"; "a"; "c"]).
Proof.
  assert (E : (project_reorder_components c_deleted load_any ["b:node"; "a:node"]
                 sample_world).1 = Return tt) by (vm_compute; reflexivity).
  pose proof (reorder_twice c_deleted load_any ["b:node"; "a:node"] sample_world E) as P.
  vm_compute in P |- *. exact P.
Defined.

Lemma reorder_accepted_entries_witness :
  Forall (fun n => count_char ":" n = 1) ["b:node"; "a:node"]
  /\ length ["b:node"; "a:node"] = length (valid_nodes c_deleted sample_world).
Proof.
  apply (reorder_accepted_entries c_deleted load_any ["b:node"; "a:node"] sample_world).
  vm_compute. reflexivity.
Defined.

End ReorderMore.

Module ChildrenMore.
Import Children ChildrenShift ChildrenFacts.

Section ChildrenMore.
Variable has_permission : Node -> User -> Permission -> bool.
Variable user : User.

(** X4. The indent argument only moves the listing: the listing of a node
    at indent [k + i] is its listing at indent [i] with every entry moved
    [k] levels, in the same order. *)
Theorem _get_children_indent (node : Node) :
  forall k i,
    _get_children has_permission user node (k + i)
    = map (shift k) (_get_children has_permission user node i).
Proof.
  induction node as [p key t pub del par l IH] using Node_rect_nodes.
  intros k i. simpl. induction IH as [|c l Hc _ IHl]; [reflexivity |].
  simpl. rewrite map_app, IHl. f_equal.
  destruct (primary c && editable has_permission user c); [| reflexivity].
  simpl. f_equal. rewrite <- Hc. f_equal. lia.
Qed.

End ChildrenMore.
End ChildrenMore.

Module TreeFacts.
Import Tree.

Lemma Node_rect_members (P : Node -> Prop) :
  (forall p k u t pub del cs vs pc cat l,
      Forall P l -> P (mkNode p k u t pub del cs vs pc cat l)) ->
  forall n, P n.
Proof.
  intros step. fix IH 1. intros [p k u t pub del cs vs pc cat l].
  apply step. induction l as [|c l IHl]; constructor; [apply IH | exact IHl].
Qed.

Section TreeFacts.
Variable has_permission : Node -> UserObj -> string -> bool.
Variable has_permission_on_children : Node -> UserObj -> string -> bool.
Variable ADMIN : string.
Variable no_readable_parent : Node -> UserObj -> bool.
Variable user : UserObj.

Local Abbreviation node_child_tree_of :=
  (node_child_tree_of has_permission has_permission_on_children ADMIN
     no_readable_parent user).
Local Abbreviation node_child_tree :=
  (node_child_tree has_permission has_permission_on_children ADMIN
     no_readable_parent user).
Local Abbreviation shown := (shown has_permission has_permission_on_children user).
Local Abbreviation listed := (listed has_permission has_permission_on_children user).

(** The loop of the source: the recursive call is on the members that are
    primary and not deleted. *)
Lemma item_children (node : Node) (it : Item) :
  node_child_tree_of node = [it] ->
  shown node = true
  /\ children it
     = node_child_tree
         (List.filter (fun n => primary n && negb (is_deleted n)) (nodes node)).
Proof.
  destruct node as [p k u t pub del cs vs pc cat l]. simpl.
  unfold Tree.shown.
  destruct (has_permission _ user "read"), (has_permission_on_children _ user "read");
    simpl; try discriminate; intros [= <-]; (split; [reflexivity |]); simpl;
    unfold Tree.node_child_tree;
    (induction l as [|c l IHl]; [reflexivity |]); simpl;
    (destruct (primary c && negb (is_deleted c)); simpl; [by rewrite IHl | exact IHl]).
Qed.

Lemma not_shown (node : Node) :
  shown node = false -> node_child_tree_of node = [].
Proof.
  destruct node as [p k u t pub del cs vs pc cat l]. unfold Tree.shown. simpl.
  intros [-> ->]%orb_false_iff. reflexivity.
Qed.

Lemma shown_item (node : Node) :
  shown node = true -> exists it, node_child_tree_of node = [it].
Proof.
  destruct node as [p k u t pub del cs vs pc cat l]. unfold Tree.shown. simpl.
  intros S. destruct (has_permission _ user "read"), (has_permission_on_children _ user "read");
    simpl in *; try discriminate; eauto.
Qed.

(** X5. An item appears in the tree of a node, at any depth, exactly when
    it is the item of a node that is listed: the node itself or a node
    reached through primary, non-deleted members, every node on the way
    being one that the user can read or can read below.  A node that is not
    shown is left out with everything below it. *)
Theorem node_child_tree_listed (top : Node) :
  forall it,
    In it (flat_map items_of (node_child_tree_of top)) <->
    exists n, listed top n /\ node_child_tree_of n = [it].
Proof.
  induction top as [p k u t pub del cs vs pc cat l IH] using Node_rect_members.
  set (top := mkNode p k u t pub del cs vs pc cat l).
  intros it. destruct (shown top) eqn:S.
  - destruct (shown_item top S) as (it0 & E0). rewrite E0.
    destruct (item_children top it0 E0) as [_ Hch].
    simpl. rewrite app_nil_r. destruct it0 as [a1 a2 a3 a4 a5 a6 a7 a8 a9 ch b1 b2 b3 b4].
    simpl in Hch. subst ch. simpl.
    unfold Tree.node_child_tree. rewrite !in_flat_map. split.
    + intros [<- | (j & Hj & Hit)].
      * exists top. split; [by apply listed_here | exact E0].
      * apply in_flat_map in Hj as (c & Hc & Hj).
        apply filter_In in Hc as [Hc Hpd]. apply andb_true_iff in Hpd as [Hp Hd].
        apply negb_true_iff in Hd.
        rewrite Forall_forall in IH.
        assert (Hin : In it (flat_map items_of (node_child_tree_of c))).
        { apply in_flat_map. exists j. split; [exact Hj | exact Hit]. }
        apply (IH c) in Hin; [| by apply list_elem_of_In].
        destruct Hin as (n & Hl & En). exists n. split; [| exact En].
        by apply listed_below with c.
    + intros (n & Hl & En). inversion Hl as [? _ | ? c ? _ Hc Hp Hd Hl']; subst.
      * left. rewrite E0 in En. by injection En.
      * right. rewrite Forall_forall in IH.
        assert (Hin : In it (flat_map items_of (node_child_tree_of c))).
        { apply (IH c); [by apply list_elem_of_In |]. by exists n. }
        apply in_flat_map in Hin as (j & Hj & Hit). exists j. split; [| exact Hit].
        apply in_flat_map. exists c. split; [| exact Hj].
        apply filter_In. split; [exact Hc |]. by rewrite Hp, Hd.
  - rewrite (not_shown top S). simpl. split; [intros [] |].
    intros (n & Hl & _). inversion Hl; subst; congruence.
Qed.

(** X6. Every item of the tree, at any depth, is the item of a node that
    is listed under one of the given nodes.  For a node that the user
    cannot read, only the url and the title are withheld: the item carries
    the empty url and the title 'Private Project'.  Everything else is the
    node's whether the user can read it or not: its key, its public flag,
    its contributors with their admin flags, its visible contributors, its
    node type and its category. *)
Theorem node_child_tree_private (tops : list Node) :
  forall it,
    In it (flat_map items_of (node_child_tree tops)) ->
    exists top n,
      In top tops /\ listed top n
      /\ view it = has_permission n user "read"
      /\ node_url it = (if view it then url n else "")
      /\ node_title it = (if view it then title n else "Private Project")
      /\ node_id it = _id n
      /\ node_is_public it = is_public n
      /\ map c_id (node_contributors it) = map user_id (contributors n)
      /\ map c_is_admin (node_contributors it)
         = map (fun contributor => has_permission n contributor ADMIN) (contributors n)
      /\ node_visible_contributors it = visible_contributor_ids n
      /\ nodeType it = project_or_component n
      /\ item_category it = category n.
Proof.
  intros it Hin. unfold Tree.node_child_tree in Hin.
  apply in_flat_map in Hin as (j & Hj & Hit).
  apply in_flat_map in Hj as (top & Htop & Hj).
  assert (Hin : In it (flat_map items_of (node_child_tree_of top))).
  { apply in_flat_map. exists j. split; [exact Hj | exact Hit]. }
  apply node_child_tree_listed in Hin as (n & Hl & En).
  exists top, n. split; [exact Htop |]. split; [exact Hl |].
  destruct n as [p k u t pub del cs vs pc cat l]. simpl in En.
  destruct (negb _ && negb _); [discriminate |].
  injection En as <-. simpl.
  repeat split; rewrite ?map_map; reflexivity.
Qed.

(** X20. The flag [can_write] of an item is computed with the permission
    'admin': when the constant [ADMIN] is that string, every item of the
    tree, at any depth, has [can_write] equal to [is_admin]. *)
Theorem node_child_tree_can_write (tops : list Node) :
  ADMIN = "admin" ->
  forall it,
    In it (flat_map items_of (node_child_tree tops)) ->
    can_write it = is_admin it.
Proof.
  intros EA it Hin. unfold Tree.node_child_tree in Hin.
  apply in_flat_map in Hin as (j & Hj & Hit).
  apply in_flat_map in Hj as (top & _ & Hj).
  assert (Hin : In it (flat_map items_of (node_child_tree_of top))).
  { apply in_flat_map. exists j. split; [exact Hj | exact Hit]. }
  apply node_child_tree_listed in Hin as (n & _ & En).
  destruct n as [p k u t pub del cs vs pc cat l]. simpl in En.
  destruct (negb _ && negb _); [discriminate |].
  injection En as <-. simpl. by rewrite EA.
Qed.

End TreeFacts.

Lemma node_child_tree_can_write_witness :
  Forall (fun it => can_write it = is_admin it)
    (flat_map items_of
       (node_child_tree sample_has_permission sample_on_children "admin"
          sample_no_parent u [p])).
Proof.
  apply Forall_forall. intros it Hin%list_elem_of_In.
  by apply (node_child_tree_can_write sample_has_permission sample_on_children "admin"
              sample_no_parent u [p] eq_refl).
Defined.

Lemma node_child_tree_private_witness :
  exists it,
    In it (flat_map items_of
             (node_child_tree sample_has_permission sample_on_children "admin"
                sample_no_parent u [p]))
    /\ view it = false
    /\ exists top n,
         In top [p] /\ listed sample_has_permission sample_on_children u top n
         /\ view it = sample_has_permission n u "read"
         /\ node_url it = (if view it then url n else "")
         /\ node_title it = (if view it then title n else "Private Project")
         /\ node_id it = _id n
         /\ node_is_public it = is_public n
         /\ map c_id (node_contributors it) = map user_id (contributors n)
         /\ map c_is_admin (node_contributors it)
            = map (fun contributor => sample_has_permission n contributor "admin")
                (contributors n)
         /\ node_visible_contributors it = visible_contributor_ids n
         /\ nodeType it = project_or_component n
         /\ item_category it = category n.
Proof.
  eexists. split; [vm_compute; right; right; left; reflexivity |].
  split; [reflexivity |].
  apply (node_child_tree_private sample_has_permission sample_on_children "admin"
           sample_no_parent u [p]).
  vm_compute. right; right; left. reflexivity.
Defined.

End TreeFacts.

Module LogsFacts.
Import Logs.

(** X7. The view returns the last three log keys, newest first, and all of
    them when the node has fewer than three. *)
Theorem get_recent_logs_last_three (logs : list key) :
  get_recent_logs logs = rev (skipn (length logs - 3) logs)
  /\ length (get_recent_logs logs) = Nat.min 3 (length logs)
  /\ (forall older a b c, logs = older ++ [a; b; c] -> get_recent_logs logs = [c; b; a]).
Proof.
  unfold get_recent_logs. split; [apply firstn_rev |]. split.
  - by rewrite length_firstn, length_rev.
  - intros older a b c ->. rewrite rev_app_distr. reflexivity.
Qed.

End LogsFacts.

Module SearchMore.
Import Search SearchCount SearchFacts.

Lemma for_each_length {A B} (f : A -> result B) (l : list A) :
  forall r, for_each f l = Return r -> length r = length l.
Proof.
  induction l as [|a l IH]; simpl; intros r E.
  - by injection E as <-.
  - destruct (f a) as [b|e]; simpl in E; [| discriminate].
    destruct (for_each f l) as [bs|e]; simpl in E; [| discriminate].
    injection E as <-. simpl. by rewrite (IH bs eq_refl).
Qed.

Lemma length_islice {A} (l : list A) (start stop : nat) :
  length (islice l start stop) <= length l.
Proof.
  unfold islice. rewrite length_firstn, length_skipn. lia.
Qed.

Lemma length_filter_le {A} (f : A -> bool) (l : list A) :
  length (List.filter f l) <= length l.
Proof. induction l as [|a l IH]; simpl; [lia |]. destruct (f a); simpl; lia. Qed.

Section SearchMore.
Context {F : Type} `{FloatOps F}.
Variable icontains : string -> string -> bool.
Variable validate_page_num : json -> F -> option exn.

Local Abbreviation search_node := (search_node icontains validate_page_num).
Local Abbreviation matches := (matches icontains).

(** X8. Whenever the view returns, every node of the result is a stored
    node whose title contains the trimmed query; its serialized title is
    the title of the node, followed by ' (registration)' for a registration;
    and the node has a contributor and a visible contributor. *)
Theorem search_node_titles (store : list Node) (user : User)
    (request_json : list (string * json)) (resp : Response F) :
  search_node store user request_json = Return resp ->
  forall e, In e (nodes resp) ->
  exists n query,
    In n store
    /\ json_strip (default (JStr "") (assoc "query" request_json)) = Return query
    /\ icontains (title n) query = true
    /\ s_id e = _id n
    /\ s_title e = (if is_registration n
                    then (title n ++ " (registration)")%string else title n)
    /\ contributors n <> []
    /\ visible_contributors n <> [].
Proof.
  unfold Search.search_node.
  destruct (json_strip (default (JStr "5") (assoc "size" request_json)))
    as [size_str|]; simpl; [| discriminate].
  destruct (float_of_string size_str) as [size|]; simpl; [| discriminate].
  destruct (json_strip (default (JStr "") (assoc "query" request_json)))
    as [query|]; simpl; [| discriminate].
  destruct (mul_page _ size) as [start|]; simpl; [| discriminate].
  destruct (String.eqb query ""); [intros [= <-] e [] |].
  match goal with
  | |- context [Node_find icontains store ?q] => set (odm_query := q)
  end.
  destruct (ceil_div _ size) as [pages|]; simpl; [| discriminate].
  destruct (validate_page_num _ pages); simpl; [discriminate |].
  destruct (to_index start) as [first|]; simpl; [| discriminate].
  destruct (to_index (add start size)) as [last|]; simpl; [| discriminate].
  destruct (for_each _ _) as [serialized|] eqn:E; simpl; [| discriminate].
  intros [= <-] e He. simpl in He.
  destruct (for_each_In _ _ _ E e He) as (n & Hin & Hs).
  apply filter_In in Hin as [Hin Hc]. apply In_islice in Hin.
  unfold Node_find in Hin. apply filter_In in Hin as [Hin M].
  assert (Mt : icontains (title n) query = true).
  { subst odm_query.
    destruct (Node_load store (json_get request_json "nodeId")); simpl in M;
      repeat (apply andb_true_iff in M as [M _]); exact M. }
  exists n, query. split; [exact Hin |]. split; [reflexivity |]. split; [exact Mt |].
  unfold _serialize_node_search in Hs.
  destruct (visible_contributors n) as [|a l] eqn:V; [discriminate |].
  injection Hs as <-. simpl. repeat split; try discriminate.
  intros Hn. by rewrite Hn in Hc.
Qed.

Lemma odm_query_selected (store : list Node) (user : User)
    (request_json : list (string * json)) (query : string) (n : Node) :
  let base :=
    q_and (q_and (q_and (title_icontains query) (is_deleted_eq false))
                 (if truthy (json_get request_json "includePublic")
                  then q_or (contributors_eq user) (is_public_eq true)
                  else contributors_eq user))
          (is_collection_eq false) in
  matches
    match Node_load store (json_get request_json "nodeId") with
    | Some node => q_and base (_id_nin (_id node :: node_ids node))
    | None => base
    end n
  = selected icontains store user request_json query n.
Proof.
  intros base. unfold selected.
  assert (B : matches base n
              = icontains (title n) query && negb (is_deleted n)
                && (existsb (String.eqb user) (contributors n)
                    || truthy (json_get request_json "includePublic") && is_public n)
                && negb (is_collection n)).
  { subst base. simpl.
    destruct (truthy (json_get request_json "includePublic")); simpl;
      destruct (icontains (title n) query), (is_deleted n), (is_collection n),
        (is_public n), (existsb (String.eqb user) (contributors n)); reflexivity. }
  destruct (Node_load store (json_get request_json "nodeId")) as [node|].
  - change (matches (q_and base (_id_nin (_id node :: node_ids node))) n)
      with (matches base n && negb (existsb (String.eqb (_id n)) (_id node :: node_ids node))).
    rewrite B. simpl. by rewrite negb_orb.
  - rewrite B. by rewrite andb_true_r.
Qed.

(** X9. Whenever the view returns after a search, the query was not empty
    and the total it reports is the number of stored nodes that the query
    selects, whatever the page and its size; the page holds at most that
    many nodes, and the page number is returned as it came.  When it returns
    without a search, the list of nodes is empty and so is the trimmed
    query. *)
Theorem search_node_total (store : list Node) (user : User)
    (request_json : list (string * json)) (resp : Response F) :
  search_node store user request_json = Return resp ->
  exists query,
    json_strip (default (JStr "") (assoc "query" request_json)) = Return query /\
    match paging resp with
    | None => nodes resp = [] /\ query = ""
    | Some (total, _, page) =>
        query <> ""
        /\ total = length (List.filter (selected icontains store user request_json query) store)
        /\ length (nodes resp) <= total
        /\ page = default (JNum 0%Q) (assoc "page" request_json)
    end.
Proof.
  unfold Search.search_node.
  destruct (json_strip (default (JStr "5") (assoc "size" request_json)))
    as [size_str|]; simpl; [| discriminate].
  destruct (float_of_string size_str) as [size|]; simpl; [| discriminate].
  destruct (json_strip (default (JStr "") (assoc "query" request_json)))
    as [query|]; simpl; [| discriminate].
  destruct (mul_page _ size) as [start|]; simpl; [| discriminate].
  destruct (String.eqb query "") eqn:Q.
  { intros [= <-]. exists query. split; [reflexivity |]. simpl.
    split; [reflexivity | by apply String.eqb_eq]. }
  match goal with
  | |- context [Node_find icontains store ?q] => set (odm_query := q)
  end.
  destruct (ceil_div _ size) as [pages|]; simpl; [| discriminate].
  destruct (validate_page_num _ pages); simpl; [discriminate |].
  destruct (to_index start) as [first|]; simpl; [| discriminate].
  destruct (to_index (add start size)) as [last|]; simpl; [| discriminate].
  destruct (for_each _ _) as [serialized|] eqn:E; simpl; [| discriminate].
  intros [= <-]. exists query. split; [reflexivity |]. simpl.
  apply for_each_length in E. rewrite E.
  assert (T : Node_find icontains store odm_query
              = List.filter (selected icontains store user request_json query) store).
  { unfold Node_find. apply List.filter_ext. intros n. subst odm_query.
    apply odm_query_selected. }
  split; [by apply String.eqb_neq |]. split; [by rewrite T |].
  split; [| reflexivity].
  etransitivity; [apply length_filter_le |]. apply length_islice.
Qed.

End SearchMore.

Lemma search_node_titles_witness :
  exists n query,
    In n sample_store
    /\ json_strip (JStr "data") = Return query
    /\ sample_icontains (title n) query = true
    /\ "q" = _id n
    /\ "data three" = (if is_registration n
                       then (title n ++ " (registration)")%string else title n)
    /\ contributors n <> []
    /\ visible_contributors n <> [].
Proof.
  assert (E : search_node sample_icontains any_page sample_store "ann"
                [("query", JStr "data"); ("includePublic", JBool true);
                 ("nodeId", JStr "p")]
              = Return (mkResponse [mkSerialized "q" "data three" "Ray" false]
                          (Some (1, 1%Q, JNum 0%Q))))
    by (vm_compute; reflexivity).
  apply (search_node_titles _ _ _ _ _ _ E (mkSerialized "q" "data three" "Ray" false)).
  left. reflexivity.
Defined.

Lemma search_node_total_witness :
  exists query,
    json_strip (JStr "data") = Return query
    /\ query <> ""
    /\ 3 = length (List.filter
                     (selected sample_icontains sample_store "ann"
                        [("query", JStr "data"); ("includePublic", JBool true);
                         ("size", JStr "1"); ("page", JNum 1%Q)] query)
                     sample_store)
    /\ 1 <= 3
    /\ JNum 1%Q = JNum 1%Q.
Proof.
  assert (E : search_node sample_icontains any_page sample_store "ann"
                [("query", JStr "data"); ("includePublic", JBool true);
                 ("size", JStr "1"); ("page", JNum 1%Q)]
              = Return (mkResponse [mkSerialized "c" "data two" "Lee" false]
                          (Some (3, 3%Q, JNum 1%Q))))
    by (vm_compute; reflexivity).
  exact (search_node_total _ _ _ _ _ _ E).
Defined.

End SearchMore.

Module CommentsMore.
Import Comments CommentsFacts.

(** X10. After a call that returns, the comment level of the node is none,
    'public' or 'private' and nothing else, the stored record equals the
    node, and sending the same request again changes nothing. *)
Theorem configure_comments_stable (request_json : list (string * json)) (w : World) :
  (configure_comments request_json w).1 = Return tt ->
  let w1 := (configure_comments request_json w).2 in
  (comment_level (stored w1) = None
   \/ comment_level (stored w1) = Some "public"
   \/ comment_level (stored w1) = Some "private")
  /\ stored w1 = node w1
  /\ configure_comments request_json w1 = (Return tt, w1).
Proof.
  unfold configure_comments.
  destruct (negb (truthy (json_get request_json "commentLevel"))) eqn:T; simpl.
  - intros _. auto.
  - destruct (public_or_private (json_get request_json "commentLevel")) as [s|] eqn:P;
      simpl; [| discriminate].
    intros _. apply public_or_private_spec in P as [_ [-> | ->]]; auto.
Qed.

Lemma configure_comments_stable_witness :
  configure_comments [("commentLevel", JStr "private")]
    (configure_comments [("commentLevel", JStr "private")] sample_world).2
  = (Return tt, mkWorld (mkNode "n" (Some "private")) (mkNode "n" (Some "private"))).
Proof.
  apply (configure_comments_stable [("commentLevel", JStr "private")] sample_world).
  reflexivity.
Defined.

End CommentsMore.

Module PointersMore.
Import Pointers PointerViews PointersFacts.

Lemma same_outside_refl (ks : list key) (w : World) : same_outside ks w w.
Proof. intros k _. auto. Qed.

Lemma same_outside_trans (ks : list key) (w1 w2 w3 : World) :
  same_outside ks w1 w2 -> same_outside ks w2 w3 -> same_outside ks w1 w3.
Proof.
  intros H12 H23 k Hk. destruct (H12 k Hk) as [E1 E2]. destruct (H23 k Hk) as [E3 E4].
  split; congruence.
Qed.

Lemma same_outside_weaken (ks ks' : list key) (w w' : World) :
  incl ks ks' -> same_outside ks w w' -> same_outside ks' w w'.
Proof. intros I S k Hk. apply S. intros Hin. by apply Hk, I. Qed.

Lemma same_outside_insert_mem (host : key) (n : Node) (w : World) (f : nat) :
  same_outside [host] w (mkWorld (<[host := n]> (mem w)) (db w) f).
Proof.
  intros k Hk. simpl. split; [| reflexivity].
  apply lookup_insert_ne. intros ->. apply Hk. by left.
Qed.

Lemma same_outside_save (host : key) (w : World) :
  same_outside [host] w (save host w).2.
Proof.
  intros k Hk. simpl. split; [reflexivity |].
  apply lookup_insert_ne. intros ->. apply Hk. by left.
Qed.

Lemma rm_pointer_outside (host : key) (pointer : nat) (w : World) :
  same_outside [host] w (rm_pointer host pointer w).2.
Proof.
  unfold rm_pointer. destruct (owns _ _); simpl.
  - apply same_outside_insert_mem.
  - apply same_outside_refl.
Qed.

Lemma try_except_bad_request_world {A} (c : M World A) (w : World) :
  (try_except c value_error_is_bad_request w).2 = (c w).2.
Proof.
  unfold try_except. destruct (c w) as [[a|e] w1]; [reflexivity |]. by destruct e.
Qed.

Lemma seq_outside {A B} (ks : list key) (c : M World A) (k : A -> M World B) (w : World) :
  same_outside ks w (c w).2 ->
  (forall a w', same_outside ks w' (k a w').2) ->
  same_outside ks w (seq c k w).2.
Proof.
  intros Hc Hk. unfold seq. destruct (c w) as [[a|e] w1]; simpl in *.
  - apply same_outside_trans with w1; [exact Hc | apply Hk].
  - exact Hc.
Qed.

Section PointersMore.
Variable related : key -> key -> bool.

Local Abbreviation add_pointer := (add_pointer related).
Local Abbreviation _add_pointers_loop := (_add_pointers_loop related).
Local Abbreviation _add_pointers := (_add_pointers related).
Local Abbreviation move_pointers_loop := (move_pointers_loop related).
Local Abbreviation move_pointers := (move_pointers related).
Local Abbreviation add_pointers := (add_pointers related).
Local Abbreviation accepted := (accepted related).

Lemma add_pointer_outside (host : key) (t : option key) (s : bool) (w : World) :
  same_outside [host] w (add_pointer host t s w).2.
Proof.
  destruct t as [t|]; [| apply same_outside_refl].
  unfold Pointers.add_pointer.
  destruct (_ || _); [apply same_outside_refl |].
  destruct s.
  - eapply same_outside_trans; [| apply same_outside_save].
    apply same_outside_insert_mem.
  - apply same_outside_insert_mem.
Qed.

Lemma _add_pointers_loop_outside (host : key) (targets : list (option key)) :
  forall flag w, same_outside [host] w (_add_pointers_loop host targets flag w).2.
Proof.
  induction targets as [|t ts IH]; intros flag w; [apply same_outside_refl |].
  rewrite _add_pointers_loop_cons.
  pose proof (add_pointer_outside host t false w) as Ha.
  destruct (add_pointer host t false w) as [[[]|e] w1]; simpl in *; [| exact Ha].
  eapply same_outside_trans; [exact Ha | apply IH].
Qed.

Lemma _add_pointers_outside (host : key) (targets : list (option key)) (w : World) :
  same_outside [host] w (_add_pointers host targets w).2.
Proof.
  unfold Pointers._add_pointers. apply seq_outside; [apply _add_pointers_loop_outside |].
  intros [|] w'; [apply same_outside_save | apply same_outside_refl].
Qed.

(** The body of the loop of [move_pointers] for one target. *)
Lemma move_pointers_loop_cons (from_node to_node t : key) (rest : list key) (w : World) :
  move_pointers_loop from_node to_node (t :: rest) w
  = match move_pointers_loop from_node to_node [t] w with
    | (Return _, w') => move_pointers_loop from_node to_node rest w'
    | (Raise e, w') => (Raise e, w')
    end.
Proof.
  simpl. destruct (Pointer_load w _) as [pointer|]; [| reflexivity].
  unfold seq.
  destruct (try_except (rm_pointer from_node pointer) value_error_is_bad_request w)
    as [[[]|e] w1]; [| reflexivity].
  destruct (save from_node w1) as [[[]|e] w2]; [| reflexivity].
  destruct (try_except _ value_error_is_bad_request w2) as [[[]|e] w3]; reflexivity.
Qed.

Lemma move_one_outside (from_node to_node t : key) (w : World) :
  same_outside [from_node; to_node] w (move_pointers_loop from_node to_node [t] w).2.
Proof.
  simpl. destruct (Pointer_load w _) as [pointer|]; [| apply same_outside_refl].
  apply seq_outside.
  { rewrite try_except_bad_request_world.
    apply same_outside_weaken with [from_node]; [| apply rm_pointer_outside].
    intros k [<- | []]. by left. }
  intros _ w1. apply seq_outside.
  { apply same_outside_weaken with [from_node]; [| apply same_outside_save].
    intros k [<- | []]. by left. }
  intros _ w2. apply seq_outside.
  { rewrite try_except_bad_request_world.
    apply same_outside_weaken with [to_node]; [| apply _add_pointers_outside].
    intros k [<- | []]. right. by left. }
  intros _ w3. apply same_outside_refl.
Qed.

Lemma move_pointers_loop_outside (from_node to_node : key) (targets : list key) :
  forall w,
    same_outside [from_node; to_node] w
      (move_pointers_loop from_node to_node targets w).2.
Proof.
  induction targets as [|t rest IH]; intros w; [apply same_outside_refl |].
  rewrite move_pointers_loop_cons.
  pose proof (move_one_outside from_node to_node t w) as H1.
  destruct (move_pointers_loop from_node to_node [t] w) as [[[]|e] w1]; simpl in *;
    [| exact H1].
  eapply same_outside_trans; [exact H1 | apply IH].
Qed.

(** X11. Whatever the request and whether it returns or raises,
    [move_pointers] changes no node object and no record other than those
    of [from_node] and [to_node]. *)
Theorem move_pointers_isolated (from_node_id to_node_id : option key)
    (pointers_to_move : option (list key)) (w : World) :
  forall k,
    Some k <> from_node_id -> Some k <> to_node_id ->
    mem (move_pointers from_node_id to_node_id pointers_to_move w).2 !! k = mem w !! k
    /\ db (move_pointers from_node_id to_node_id pointers_to_move w).2 !! k = db w !! k.
Proof.
  intros k Hf Ht. unfold Pointers.move_pointers.
  destruct from_node_id as [f|], to_node_id as [t|], pointers_to_move as [l|]; auto.
  unfold Node_load.
  destruct (mem w !! f); [| auto]. destruct (mem w !! t); [| auto].
  apply move_pointers_loop_outside.
  intros [-> | [-> | []]]; congruence.
Qed.

End PointersMore.
End PointersMore.

Module PointersBatches.
Import Pointers PointerViews PointerOrder PointersFacts PointersMore.

Lemma keeps_objects_refl (w : World) : keeps_objects w w.
Proof. intros k H. exact H. Qed.

Lemma keeps_objects_trans (w1 w2 w3 : World) :
  keeps_objects w1 w2 -> keeps_objects w2 w3 -> keeps_objects w1 w3.
Proof. intros H12 H23 k H. by apply H23, H12. Qed.

Lemma keeps_objects_insert (host : key) (n : Node) (w : World) (d : gmap key Node) (f : nat) :
  keeps_objects w (mkWorld (<[host := n]> (mem w)) d f).
Proof.
  intros k H. simpl. destruct (decide (host = k)) as [-> | Hne].
  - rewrite lookup_insert_eq. eauto.
  - by rewrite lookup_insert_ne.
Qed.

Lemma seq_keeps {A B} (c : M World A) (k : A -> M World B) (w : World) :
  keeps_objects w (c w).2 ->
  (forall a w', keeps_objects w' (k a w').2) ->
  keeps_objects w (seq c k w).2.
Proof.
  intros Hc Hk. unfold seq. destruct (c w) as [[a|e] w1]; simpl in *.
  - apply keeps_objects_trans with w1; [exact Hc | apply Hk].
  - exact Hc.
Qed.

Section PointersBatches.
Variable related : key -> key -> bool.

Local Abbreviation add_pointer := (add_pointer related).
Local Abbreviation _add_pointers_loop := (_add_pointers_loop related).
Local Abbreviation _add_pointers := (_add_pointers related).
Local Abbreviation move_pointers_loop := (move_pointers_loop related).
Local Abbreviation move_pointers := (move_pointers related).

Lemma rm_pointer_keeps (host : key) (pointer : nat) (w : World) :
  keeps_objects w (rm_pointer host pointer w).2.
Proof.
  unfold rm_pointer. destruct (owns _ _); simpl.
  - apply keeps_objects_insert.
  - apply keeps_objects_refl.
Qed.

Lemma save_keeps (host : key) (w : World) : keeps_objects w (save host w).2.
Proof. intros k H. exact H. Qed.

Lemma add_pointer_keeps (host : key) (t : option key) (w : World) :
  keeps_objects w (add_pointer host t false w).2.
Proof.
  destruct t as [t|]; [| apply keeps_objects_refl].
  rewrite add_pointer_unsaved. destruct (accepted related w host t); simpl.
  - apply keeps_objects_insert.
  - apply keeps_objects_refl.
Qed.

Lemma _add_pointers_keeps (host : key) (targets : list (option key)) (w : World) :
  keeps_objects w (_add_pointers host targets w).2.
Proof.
  unfold Pointers._add_pointers. apply seq_keeps.
  - generalize false. revert w.
    induction targets as [|t ts IH]; intros w flag; [apply keeps_objects_refl |].
    rewrite _add_pointers_loop_cons.
    pose proof (add_pointer_keeps host t w) as Ha.
    destruct (add_pointer host t false w) as [[[]|e] w1]; simpl in *; [| exact Ha].
    eapply keeps_objects_trans; [exact Ha | apply IH].
  - intros [|] w'; [apply save_keeps | apply keeps_objects_refl].
Qed.

Lemma move_one_keeps (from_node to_node t : key) (w : World) :
  keeps_objects w (move_pointers_loop from_node to_node [t] w).2.
Proof.
  simpl. destruct (Pointer_load w _) as [pointer|]; [| apply keeps_objects_refl].
  apply seq_keeps.
  { rewrite try_except_bad_request_world. apply rm_pointer_keeps. }
  intros _ w1. apply seq_keeps; [apply save_keeps |].
  intros _ w2. apply seq_keeps.
  { rewrite try_except_bad_request_world. apply _add_pointers_keeps. }
  intros _ w3. apply keeps_objects_refl.
Qed.

Lemma move_pointers_loop_keeps (from_node to_node : key) (targets : list key) :
  forall w, keeps_objects w (move_pointers_loop from_node to_node targets w).2.
Proof.
  induction targets as [|t rest IH]; intros w; [apply keeps_objects_refl |].
  rewrite move_pointers_loop_cons.
  pose proof (move_one_keeps from_node to_node t w) as H1.
  destruct (move_pointers_loop from_node to_node [t] w) as [[[]|e] w1]; simpl in *;
    [| exact H1].
  eapply keeps_objects_trans; [exact H1 | apply IH].
Qed.

Lemma move_pointers_loop_app (from_node to_node : key) (l1 l2 : list key) :
  forall w,
    move_pointers_loop from_node to_node (l1 ++ l2) w
    = match move_pointers_loop from_node to_node l1 w with
      | (Return _, w1) => move_pointers_loop from_node to_node l2 w1
      | (Raise e, w1) => (Raise e, w1)
      end.
Proof.
  induction l1 as [|t l1 IH]; intros w; [reflexivity |].
  rewrite <- app_comm_cons, (move_pointers_loop_cons _ _ _ t (l1 ++ l2)),
    (move_pointers_loop_cons _ _ _ t l1).
  destruct (move_pointers_loop from_node to_node [t] w) as [[[]|e] w1]; [| reflexivity].
  apply IH.
Qed.

(** X12. Moving a list of pointers is moving its first part and then, on
    the world that leaves, the rest: the view neither starts over nor rolls
    back, so that when a later pointer fails the earlier ones stay moved. *)
Theorem move_pointers_in_parts (from_node to_node : key) (l1 l2 : list key) (w : World) :
  move_pointers (Some from_node) (Some to_node) (Some (l1 ++ l2)) w
  = match move_pointers (Some from_node) (Some to_node) (Some l1) w with
    | (Return _, w1) => move_pointers (Some from_node) (Some to_node) (Some l2) w1
    | (Raise e, w1) => (Raise e, w1)
    end.
Proof.
  unfold Pointers.move_pointers, Node_load.
  destruct (mem w !! from_node) as [nf|] eqn:Hf; [| reflexivity].
  destruct (mem w !! to_node) as [nt|] eqn:Ht; [| reflexivity].
  rewrite move_pointers_loop_app.
  pose proof (move_pointers_loop_keeps from_node to_node l1 w) as K.
  destruct (move_pointers_loop from_node to_node l1 w) as [[[]|e] w1]; [| reflexivity].
  simpl in K.
  destruct (K from_node) as [nf' ->]; [by rewrite Hf |].
  destruct (K to_node) as [nt' ->]; [by rewrite Ht |].
  reflexivity.
Qed.

End PointersBatches.
End PointersBatches.

Module PointerViewsFacts.
Import Pointers PointerViews PointerGuards PointersFacts PointersMore.

Section PointerViewsFacts.
Variable related : key -> key -> bool.
Variable must_not_be_registration : Permissions.Node -> option exn.

Local Abbreviation _add_pointers_loop := (_add_pointers_loop related).
Local Abbreviation _add_pointers := (_add_pointers related).
Local Abbreviation add_pointers := (add_pointers related).
Local Abbreviation add_pointer_view := (add_pointer_view related).
Local Abbreviation add_pointer_route := (add_pointer_route related).
Local Abbreviation add_pointers_route :=
  (add_pointers_route related must_not_be_registration).
Local Abbreviation accepted := (accepted related).

(** X13. With two non-empty keys and a [to_node] that loads, the view
    [add_pointer] runs the body of [add_pointers] on [to_node] with a batch
    of that one key and returns [None] where [add_pointers] returns [{}];
    the actor plays no part in it.  Where the actor has write permission on
    the node and the registration check passes, the two views leave the same
    world and return or raise together; where one of the two decorators of
    [add_pointers] refuses, [add_pointers] ends with that error and changes
    nothing. *)
Theorem add_pointer_is_batch_of_one (auth : Permissions.Auth) (node : Permissions.Node)
    (pointer_to_move : key) (w : World) :
  Permissions._id node <> "" ->
  pointer_to_move <> "" ->
  is_Some (mem w !! Permissions._id node) ->
  let single :=
    add_pointer_route auth (Some (Permissions._id node)) (Some pointer_to_move) w in
  let batch := add_pointers_route auth node (Some [pointer_to_move]) w in
  single = (do_ add_pointers (Permissions._id node) (Some [pointer_to_move]);
            ret JNull) w
  /\ (Permissions.require auth node WRITE = Return tt ->
      must_not_be_registration node = None ->
      single.2 = batch.2
      /\ (single.1 = Return JNull <-> batch.1 = Return (JObj []))
      /\ (forall e, single.1 = Raise e <-> batch.1 = Raise e))
  /\ (forall e, Permissions.require auth node WRITE = Raise e ->
        batch = (Raise e, w))
  /\ (forall e, Permissions.require auth node WRITE = Return tt ->
        must_not_be_registration node = Some e ->
        batch = (Raise e, w)).
Proof.
  intros Ht Hp [n Hn]. cbv zeta.
  assert (E : add_pointer_view (Some (Permissions._id node)) (Some pointer_to_move) w
              = add_pointers (Permissions._id node) (Some [pointer_to_move]) w).
  { unfold PointerViews.add_pointer_view, Pointers.add_pointers.
    apply String.eqb_neq in Ht, Hp. rewrite Ht, Hp. cbn [orb map].
    unfold Node_load. rewrite Hn. reflexivity. }
  unfold add_pointer_route, add_pointers_route, must_have_permission.
  split; [unfold seq; by rewrite E |]. split; [| split].
  - intros -> ->. unfold Permissions.guarded, seq. rewrite E.
    destruct (add_pointers (Permissions._id node) (Some [pointer_to_move]) w)
      as [[[]|e] w1]; simpl.
    + split; [reflexivity |]. split; [tauto |]. intros e; split; discriminate.
    + split; [reflexivity |]. split; [split; discriminate | tauto].
  - intros e ->. reflexivity.
  - intros e -> ->. reflexivity.
Qed.

Lemma remove_only_pointer (node t : key) (p : Pointer) (w : World) :
  active_pointers (object w node) t = [p] ->
  remove_pointer_from_folder node (Some t) w = (Return tt, removed w node p).
Proof.
  intros E. unfold remove_pointer_from_folder, pointing_at, Pointer_load. rewrite E.
  assert (O : owns (object w node) (_id p) = true).
  { apply owns_active with t. rewrite E. by left. }
  unfold seq, try_except, rm_pointer. rewrite O.
  unfold save. cbn [mem db fresh]. by rewrite object_insert_eq.
Qed.

Lemma removed_no_pointer (node t : key) (p : Pointer) (w : World) :
  active_pointers (object w node) t = [p] ->
  active_pointers (object (removed w node p) node) t = []
  /\ active_pointers (record (removed w node p) node) t = [].
Proof.
  intros E. unfold removed. rewrite object_insert_eq, record_insert_eq.
  split; apply active_pointers_tombstone; by rewrite Node_eta.
Qed.

Lemma remove_missing_pointer (node t : key) (w : World) :
  active_pointers (object w node) t = [] ->
  remove_pointer_from_folder node (Some t) w = (Raise (HTTPError BAD_REQUEST []), w).
Proof.
  intros E. unfold remove_pointer_from_folder, pointing_at, Pointer_load. by rewrite E.
Qed.

(** X14. Removing from a node the one active pointer it holds to a target
    returns and saves the node without an active pointer to the target;
    removing the same pointer a second time raises a bad request and
    changes nothing. *)
Theorem remove_pointer_once (node t : key) (p : Pointer) (w : World) :
  active_pointers (object w node) t = [p] ->
  let out := remove_pointer_from_folder node (Some t) w in
  out.1 = Return tt
  /\ active_pointers (record out.2 node) t = []
  /\ remove_pointer_from_folder node (Some t) out.2
     = (Raise (HTTPError BAD_REQUEST []), out.2).
Proof.
  intros E. cbv zeta. rewrite (remove_only_pointer _ _ _ _ E). simpl.
  destruct (removed_no_pointer _ _ _ _ E) as [Ho Hr].
  split; [reflexivity |]. split; [exact Hr |]. by apply remove_missing_pointer.
Qed.

Lemma add_one_pointer (host t : key) (w : World) :
  is_Some (mem w !! t) ->
  accepted w host t = true ->
  exists w1,
    add_pointers host (Some [t]) w = (Return tt, w1)
    /\ active_pointers (object w1 host) t = [mkPointer (fresh w) t false]
    /\ active_pointers (record w1 host) t = [mkPointer (fresh w) t false]
    /\ same_outside [host] w w1.
Proof.
  intros [n Hn] A.
  pose proof (_add_pointers_outside related host [Some t] w) as Ho.
  unfold Pointers.add_pointers. simpl. unfold Node_load. rewrite Hn.
  unfold try_except.
  unfold Pointers._add_pointers, seq in *.
  destruct (_add_pointers_loop_accepts related host [t] false w) as (w' & E & Hdb & Hp).
  { apply NoDup_singleton. }
  { by apply Forall_singleton. }
  change (Some <$> [t]) with [Some t] in E. rewrite E in *. simpl in Ho |- *.
  eexists. split; [reflexivity |].
  assert (Ha : active_pointers (object w' host) t = [mkPointer (fresh w) t false]).
  { rewrite <- (Node_eta (object w' host)), Hp. simpl.
    rewrite active_pointers_app, active_pointers_new, String.eqb_refl, Node_eta.
    unfold Pointers.accepted in A.
    destruct (active_pointers (object w host) t); [reflexivity |].
    by rewrite andb_false_r in A. }
  split; [exact Ha |]. split; [| exact Ho].
  unfold record. simpl. by rewrite lookup_insert_eq.
Qed.

(** X15. A pointer that was added can be removed and added again: after
    [add_pointers] with one accepted target and
    [remove_pointer_from_folder] for it, the node holds no active pointer
    to the target, no other node has changed, and the target is accepted
    once more. *)
Theorem add_remove_add (host t : key) (w : World) :
  is_Some (mem w !! t) ->
  accepted w host t = true ->
  let w1 := (add_pointers host (Some [t]) w).2 in
  let out := remove_pointer_from_folder host (Some t) w1 in
  out.1 = Return tt
  /\ active_pointers (record out.2 host) t = []
  /\ same_outside [host] w out.2
  /\ accepted out.2 host t = true.
Proof.
  intros Ht A. cbv zeta.
  destruct (add_one_pointer host t w Ht A) as (w1 & -> & Ho & Hr & Hs). cbn [fst snd].
  rewrite (remove_only_pointer _ _ _ _ Ho). cbn [fst snd].
  destruct (removed_no_pointer _ _ _ _ Ho) as [Ho' Hr'].
  split; [reflexivity |]. split; [exact Hr' |]. split.
  - apply same_outside_trans with w1; [exact Hs |].
    intros k Hk. unfold removed. simpl. split; apply lookup_insert_ne;
      intros ->; apply Hk; by left.
  - unfold Pointers.accepted in *. rewrite Ho'.
    apply andb_true_iff in A as [A Hrel]. apply andb_true_iff in A as [Hne _].
    by rewrite Hne, Hrel.
Qed.

End PointerViewsFacts.

Lemma move_pointers_isolated_witness :
  mem (move_pointers unrelated (Some "a") (Some "c") (Some ["b"]) sample_world).2 !! "b"
  = mem sample_world !! "b"
  /\ db (move_pointers unrelated (Some "a") (Some "c") (Some ["b"]) sample_world).2 !! "b"
     = db sample_world !! "b".
Proof.
  apply (move_pointers_isolated unrelated (Some "a") (Some "c") (Some ["b"]) sample_world "b");
    discriminate.
Defined.

Lemma add_pointer_is_batch_of_one_witness :
  (add_pointer_route unrelated ann (Some "c") (Some "b") sample_world).2
  = (add_pointers_route unrelated no_registration ann node_c (Some ["b"]) sample_world).2.
Proof.
  apply (add_pointer_is_batch_of_one unrelated no_registration ann node_c "b" sample_world);
    [discriminate | discriminate | eexists; vm_compute; reflexivity
    | reflexivity | reflexivity].
Defined.

Lemma remove_pointer_once_witness :
  (remove_pointer_from_folder "a" (Some "b") sample_world).1 = Return tt
  /\ active_pointers (record (remove_pointer_from_folder "a" (Some "b") sample_world).2 "a") "b"
     = [].
Proof.
  destruct (remove_pointer_once "a" "b" (mkPointer 0 "b" false) sample_world)
    as (H1 & H2 & _); [vm_compute; reflexivity | auto].
Defined.

Lemma add_remove_add_witness :
  (remove_pointer_from_folder "c" (Some "b")
     (add_pointers unrelated "c" (Some ["b"]) sample_world).2).1 = Return tt.
Proof.
  apply (add_remove_add unrelated "c" "b" sample_world);
    [eexists; vm_compute; reflexivity | vm_compute; reflexivity].
Defined.

End PointerViewsFacts.

Module PrivateLinksFacts.
Import PrivateLinks.

Lemma PrivateLink_load_Some (w : World) (j : json) (k : key) (l : PrivateLink) :
  PrivateLink_load w j = Some (k, l) -> j = JStr k /\ links w !! k = Some l.
Proof.
  destruct j as [| | |s| |]; simpl; try discriminate.
  destruct (links w !! s) as [l'|] eqn:E; [| discriminate].
  intros [= <- <-]. auto.
Qed.

Section PrivateLinksFacts.
Variable validate_title : json -> option string.
Variable strip_html : json -> string.

Local Abbreviation project_private_link_edit :=
  (project_private_link_edit validate_title strip_html).

(** X16. Renaming a view-only link changes no other link, and changes
    nothing at all when it raises; when it returns, the submitted name has
    passed the validation, the link of key [pk] existed, and that link now
    carries exactly the returned name, its deletion flag being as it was. *)
Theorem private_link_edit_effect (request_json : list (string * json)) (w : World) :
  let out := project_private_link_edit request_json w in
  let name := default (JStr "") (assoc "value" request_json) in
  (forall k, default (JStr "") (assoc "pk" request_json) <> JStr k ->
     links out.2 !! k = links w !! k) /\
  (forall e, out.1 = Raise e -> out.2 = w) /\
  (forall new_name, out.1 = Return new_name ->
     validate_title name = None
     /\ new_name = strip_html name
     /\ exists k l,
          default (JStr "") (assoc "pk" request_json) = JStr k
          /\ links w !! k = Some l
          /\ links out.2 !! k = Some (mkPrivateLink new_name (is_deleted l))).
Proof.
  intros out name. subst out. unfold PrivateLinks.project_private_link_edit. fold name.
  destruct (validate_title name) as [msg|]; simpl.
  { split; [reflexivity |]. split; [reflexivity | intros ? [=]]. }
  destruct (PrivateLink_load w (default (JStr "") (assoc "pk" request_json)))
    as [[k l]|] eqn:L; simpl.
  - apply PrivateLink_load_Some in L as [Ek Hl]. split; [| split].
    + intros k' Hk'. apply lookup_insert_ne. intros <-. by apply Hk'.
    + intros ? [=].
    + intros ? [= <-]. split; [reflexivity |]. split; [reflexivity |].
      exists k, l. split; [exact Ek |]. split; [exact Hl | apply lookup_insert_eq].
  - split; [reflexivity |]. split; [reflexivity | intros ? [=]].
Qed.

End PrivateLinksFacts.

(** X17. When [remove_private_link] returns, the link of the given key is
    marked deleted with its name kept, every other link is as it was, and
    removing the link once more returns and changes nothing. *)
Theorem remove_private_link_effect (request_json : list (string * json)) (w : World) :
  (remove_private_link request_json w).1 = Return tt ->
  let w1 := (remove_private_link request_json w).2 in
  (exists k l,
     assoc "private_link_id" request_json = Some (JStr k)
     /\ links w !! k = Some l
     /\ links w1 !! k = Some (mkPrivateLink (name l) true)
     /\ forall k', k' <> k -> links w1 !! k' = links w !! k')
  /\ remove_private_link request_json w1 = (Return tt, w1).
Proof.
  unfold remove_private_link.
  destruct (assoc "private_link_id" request_json) as [j|]; simpl; [| discriminate].
  destruct (PrivateLink_load w j) as [[k l]|] eqn:L; simpl; [| discriminate].
  intros _. apply PrivateLink_load_Some in L as [-> Hl]. split.
  - exists k, l. split; [reflexivity |]. split; [exact Hl |].
    split; [apply lookup_insert_eq |]. intros k' Hk'. by apply lookup_insert_ne.
  - simpl. rewrite lookup_insert_eq. simpl. unfold store. simpl.
    by rewrite insert_insert_eq.
Qed.

Lemma remove_private_link_effect_witness :
  remove_private_link [("private_link_id", JStr "k1")]
    (remove_private_link [("private_link_id", JStr "k1")] sample_world).2
  = (Return tt, (remove_private_link [("private_link_id", JStr "k1")] sample_world).2).
Proof.
  apply (remove_private_link_effect [("private_link_id", JStr "k1")] sample_world).
  reflexivity.
Defined.

End PrivateLinksFacts.

Module ListingFacts.
Import Listing.

Section ChildrenFacts.
Context {Obj : Type}.
Variable is_deleted : Obj -> bool.
Variable get_permissions : Obj -> User -> list string.
Variable lower : string -> string.

Local Abbreviation get_children_nodes :=
  (get_children_nodes is_deleted get_permissions lower).

Lemma filter_and_sublist {A} (f g : A -> bool) (l : list A) :
  sublist (List.filter (fun a => f a && g a) l) (List.filter g l).
Proof.
  induction l as [|a l IH]; simpl; [constructor |].
  destruct (f a), (g a); simpl; try exact IH; by constructor.
Qed.

(** X18. The children handed to the renderer never include a deleted one,
    and a permissions argument only narrows the list: with any argument the
    list is a sublist, in the same order, of the list without argument; an
    empty argument is no argument. *)
Theorem get_children_narrows (nodes : list Obj) (user : User)
    (permissions : option string) :
  Forall (fun each => is_deleted each = false)
    (get_children_nodes nodes user permissions)
  /\ sublist (get_children_nodes nodes user permissions)
             (get_children_nodes nodes user None)
  /\ get_children_nodes nodes user (Some "") = get_children_nodes nodes user None.
Proof.
  split; [| split]; [| | reflexivity].
  - apply Forall_forall. intros x Hx%list_elem_of_In.
    unfold Listing.get_children_nodes in Hx.
    destruct permissions as [p|]; [destruct (negb (String.eqb p "")) |];
      apply filter_In in Hx as [_ Hx];
      try (apply andb_true_iff in Hx as [_ Hx]); by apply negb_true_iff.
  - unfold Listing.get_children_nodes.
    destruct permissions as [p|]; [destruct (negb (String.eqb p "")) |];
      try reflexivity.
    apply filter_and_sublist.
Qed.

End ChildrenFacts.

Section PointedFacts.
Context {Auth : Type}.
Variable can_view : Node -> Auth -> bool.

Lemma for_each_Forall2 {A B} (f : A -> result B) (l : list A) :
  forall r, for_each f l = Return r -> Forall2 (fun a b => f a = Return b) l r.
Proof.
  induction l as [|a l IH]; simpl; intros r E.
  - injection E as <-. constructor.
  - destruct (f a) as [b|e] eqn:Fa; simpl in E; [| discriminate].
    destruct (for_each f l) as [bs|e] eqn:Fl; simpl in E; [| discriminate].
    injection E as <-. constructor; [exact Fa | by apply IH].
Qed.

(** X19. When [get_pointed] returns, its entries stand one to one, in
    order, for the pointing nodes that are no collections; the entry of a
    node that the actor can view carries its key, url and title, and the
    entry of any other node is the fixed private entry, which tells neither
    key nor url nor title. *)
Theorem get_pointed_private (auth : Auth) (pointed : list Node) (entries : list Pointed) :
  get_pointed can_view auth pointed = Return entries ->
  Forall2 (tells can_view auth)
    (List.filter (fun each => negb (is_collection each)) pointed) entries.
Proof.
  unfold get_pointed. intros E%for_each_Forall2.
  eapply Forall2_impl; [exact E |].
  intros n e. unfold serialize_pointer, tells. simpl.
  destruct (can_view n auth).
  - destruct (abbrev_authors n); simpl; [| discriminate]. intros [= <-]. auto.
  - by intros [= <-].
Qed.

End PointedFacts.

Lemma get_pointed_private_witness :
  Forall2 (tells sample_can_view "u") [pub; priv]
    [mkPointed (Some "pub") (Some "/pub/") "Public" "Lee";
     mkPointed None None "Private Component" "Private Author(s)"].
Proof.
  apply (get_pointed_private sample_can_view "u" [pub; folder; priv]).
  reflexivity.
Defined.

End ListingFacts.
